(** * Listing lifecycle and trend aggregation of cars-trends-tool

    Shallow embedding of
    - [services/listing_lifecycle_service.py] ([upsert_listing]),
    - [services/trends_service.py] ([create_daily_snapshot],
      [get_trending_cars], [get_market_overview]),
    - [services/cleanup_service.py] ([cleanup_old_listings],
      [cleanup_old_snapshots]).

    Conventions of the model:
    - a database table is a list of rows in storage order;
    - [datetime] values are microseconds since the epoch ([Z]), [date]
      values are day numbers ([Z]);
    - the Python [float] columns are modelled as exact rationals ([Q]);
      [round(x, n)] is round-half-even of the exact value;
    - a Python [None] is [None]; a dict key that may be absent is an
      [option (option _)] (outer [None]: key absent). *)

From Stdlib Require Import List String ZArith QArith Qround Qabs Bool Lia.
From Stdlib Require Import Permutation Sorted Lqa.
Import ListNotations.

(* ------------------------------------------------------------------ *)
(** ** Time *)

Definition timestamp := Z.
Definition usec_per_second : Z := 1000000.
Definition usec_per_day : Z := 86400 * usec_per_second.

(** [timedelta(days=n)] *)
Definition timedelta_days (n : Z) : Z := n * usec_per_day.

(** [dt.date()] for a [datetime] [dt]. *)
Definition to_date (t : timestamp) : Z := Z.div t usec_per_day.

(* ------------------------------------------------------------------ *)
(** ** Python truthiness and [round] on the rational model of [float] *)

(** [if x] for an optional float: [None] and [0.0] are falsy. *)
Definition truthy (x : option Q) : bool :=
  match x with
  | None => false
  | Some q => negb (Qeq_bool q 0)
  end.

(** Round half to even, to an integer. *)
Definition round_half_even (x : Q) : Z :=
  let f := Qfloor x in
  let d := Qminus x (inject_Z f) in
  match Qcompare d (1 # 2) with
  | Lt => f
  | Gt => f + 1
  | Eq => if Z.even f then f else f + 1
  end%Z.

(** [round(x, n)] *)
Definition py_round (n : nat) (x : Q) : Q :=
  let s := Z.pow 10 (Z.of_nat n) in
  Qmake (round_half_even (Qmult x (inject_Z s))) (Z.to_pos s).

(** [abs(x)] *)
Definition py_abs (x : Q) : Q := Qabs x.

(* ------------------------------------------------------------------ *)
(** ** The [listings] table ([models.Listing]) *)

(** A row of the [listings] table. Every field but the last two is a
    column that [models.Listing] maps. [first_seen] and [last_seen] are
    the columns [migrate_add_lifecycle.py] adds to the table with
    [ALTER TABLE] ([None] where the row has no value); [models.Listing]
    maps neither, so ORM code can not read or write them (see
    [listing_mapped]). [platform] and [title] are NOT NULL columns: the
    row object can hold [None], the commit then fails with an
    [IntegrityError]. The surrogate key [id] is left out. *)
Record Listing := mkListing {
  platform : option string;
  title : option string;
  url : string;
  price : option Q;
  make : option string;
  model : option string;
  year : option Z;
  mileage : option Z;
  views : option Z;
  likes : option Z;
  comments : option Z;
  scraped_at : timestamp;
  first_seen : option timestamp;
  last_seen : option timestamp
}.

(** The attributes [models.Listing] maps to columns (lines 22-32). *)
Definition listing_mapped : list string :=
  ["id"; "platform"; "title"; "url"; "price"; "make"; "model"; "year";
   "mileage"; "views"; "likes"; "comments"; "scraped_at"]%string.

(** Whether [Listing.a] is a mapped attribute. Reading an attribute that
    is not mapped from the class ([Listing.last_seen] in a query)
    raises [AttributeError]; passing it to the constructor
    ([Listing(last_seen=...)]) raises [TypeError]; assigning it on an
    instance only sets a Python attribute that is never flushed. *)
Definition mapped (a : string) : bool := existsb (String.eqb a) listing_mapped.

(** [db.query(Listing).filter(Listing.url == u).first()] *)
Definition find_by_url (u : string) (db : list Listing) : option Listing :=
  find (fun l => String.eqb (url l) u) db.

(** [UPDATE listings SET ... WHERE url = u]: the session flushes its
    changes to the row with that url. *)
Definition update_by_url (u : string) (f : Listing -> Listing)
    (db : list Listing) : list Listing :=
  map (fun l => if String.eqb (url l) u then f l else l) db.

(** The url, [first_seen] and [last_seen] of a row. *)
Definition lifecycle (l : Listing) : string * option timestamp * option timestamp :=
  (url l, first_seen l, last_seen l).

(** NOT NULL constraints of [listings] ([url] is a [string]). *)
Definition not_null_ok (r : Listing) : bool :=
  match platform r, title r with
  | Some _, Some _ => true
  | _, _ => false
  end.

(* ------------------------------------------------------------------ *)
(** ** [upsert_listing] *)

(** The [listing_data] dict. [d_url] is [listing_data.get('url')];
    every other key may be absent (outer [None]) or hold [None]. *)
Record ListingData := mkData {
  d_url : option string;
  d_platform : option (option string);
  d_title : option (option string);
  d_price : option (option Q);
  d_make : option (option string);
  d_model : option (option string);
  d_year : option (option Z);
  d_mileage : option (option Z);
  d_views : option (option Z);
  d_likes : option (option Z);
  d_comments : option (option Z)
}.

(** Exceptions that leave the service functions. *)
Inductive UpsertError :=
| ValueError          (* missing or empty url *)
| IntegrityError      (* re-raised after a failed race recovery *)
| PersistenceError    (* any other store failure *)
| TypeError           (* an unknown keyword argument of [Listing(...)] *)
| AttributeError.     (* [Listing.a] for an attribute that is not mapped *)

Inductive result (A : Type) :=
| Ok (a : A)
| Err (e : UpsertError).
Arguments Ok {A} a.
Arguments Err {A} e.

(** What happens around one call, outside the call itself:
    - [concurrent]: the commits of other writers that land between the
      existence query and this call's first commit;
    - [commit_fails]: the first commit fails with a store error that is
      not an [IntegrityError];
    - [retry_commit_fails]: the commit of the race-recovery update fails. *)
Record Env := mkEnv {
  concurrent : list Listing -> list Listing;
  commit_fails : bool;
  retry_commit_fails : bool
}.

(** A single writer, a store that does not fail. *)
Definition quiet_env : Env := mkEnv (fun db => db) false false.

(** Value of an optional dict key: [listing_data.get(k)]. *)
Definition dget {A} (k : option (option A)) : option A :=
  match k with Some v => v | None => None end.

(** [if k in listing_data: field = listing_data[k]] *)
Definition set_if_present {A} (k : option (option A)) (old : option A)
    : option A :=
  match k with Some v => v | None => old end.

(** [listing_data['price'] != existing.price] *)
Definition price_neq (p q : option Q) : bool :=
  match p, q with
  | None, None => false
  | Some a, Some b => negb (Qeq_bool a b)
  | _, _ => true
  end.

(** [existing.last_seen = now] on a loaded row: it changes the row only
    if [last_seen] is a mapped attribute. *)
Definition set_last_seen (now : timestamp) (l : Listing) : Listing :=
  if mapped "last_seen" then
    mkListing (platform l) (title l) (url l) (price l) (make l) (model l)
      (year l) (mileage l) (views l) (likes l) (comments l) (scraped_at l)
      (first_seen l) (Some now)
  else l.

(** Lines 61-80: the assignments of the update branch, applied to the
    row as the commit finds it. [existing] is the row read by the
    existence query (the price is only assigned when it differs). The
    assignment to [last_seen] (line 61) does not reach the row. *)
Definition update_existing (now : timestamp) (d : ListingData)
    (existing : Listing) (row : Listing) : Listing :=
  mkListing (platform row)
    (set_if_present (d_title d) (title row))
    (url row)
    (match d_price d with
     | Some p => if price_neq p (price existing) then p else price row
     | None => price row
     end)
    (make row) (model row) (year row) (mileage row)
    (set_if_present (d_views d) (views row))
    (set_if_present (d_likes d) (likes row))
    (set_if_present (d_comments d) (comments row))
    now
    (first_seen row)
    (last_seen (set_last_seen now row)).

(** Lines 91-95: [Listing( **listing_data)] after the three timestamps
    are added to the dict. The declarative constructor raises
    [TypeError] on a keyword that is not a mapped attribute; the keys of
    [ListingData] all are, the three added ones are checked here. *)
Definition new_listing (now : timestamp) (u : string) (d : ListingData)
    : result Listing :=
  if forallb mapped ["first_seen"; "last_seen"; "scraped_at"]%string then
    Ok (mkListing (dget (d_platform d)) (dget (d_title d)) u (dget (d_price d))
          (dget (d_make d)) (dget (d_model d)) (dget (d_year d))
          (dget (d_mileage d)) (dget (d_views d)) (dget (d_likes d))
          (dget (d_comments d)) now (Some now) (Some now))
  else Err TypeError.

(** Lines 101-111: the [except IntegrityError] branch. After the
    rollback the store holds what the other writers committed. Line 108
    assigns [last_seen], which is not mapped, so the commit of line 109
    has nothing to write: the stored row stays as it was. *)
Definition race_recovery (env : Env) (now : timestamp) (u : string)
    (db : list Listing) : result Listing * list Listing :=
  match find_by_url u db with
  | Some existing =>
      let r := set_last_seen now existing in
      if retry_commit_fails env then (Err PersistenceError, db)
      else (Ok r, update_by_url u (fun _ => r) db)
  | None => (Err IntegrityError, db)
  end.

(** [upsert_listing(listing_data)] with [datetime.utcnow() = now]:
    the result and the table after the call. A returned row is the row
    as the table holds it; the plain Python attribute [last_seen] that
    lines 61 and 108 put on the returned object is not part of it. *)
Definition upsert_listing (env : Env) (now : timestamp) (d : ListingData)
    (db : list Listing) : result Listing * list Listing :=
  match d_url d with
  | None => (Err ValueError, db)
  | Some u =>
      if String.eqb u EmptyString then (Err ValueError, db) else
      let db1 := concurrent env db in
      match find_by_url u db with
      | Some existing =>
          match find_by_url u db1 with
          | None => (Err PersistenceError, db1)   (* row deleted meanwhile *)
          | Some row =>
              let r := update_existing now d existing row in
              if commit_fails env then (Err PersistenceError, db1)
              else if not_null_ok r then (Ok r, update_by_url u (fun _ => r) db1)
              else race_recovery env now u db1
          end
      | None =>
          match new_listing now u d with
          | Err e => (Err e, db1)   (* [except Exception]: rollback, raise *)
          | Ok r =>
              if commit_fails env then (Err PersistenceError, db1)
              else match find_by_url u db1 with
                   | Some _ => race_recovery env now u db1
                   | None =>
                       if not_null_ok r then (Ok r, db1 ++ [r])
                       else race_recovery env now u db1
                   end
          end
      end
  end.

(* ------------------------------------------------------------------ *)
(** ** The [daily_snapshots] table ([models.DailySnapshot]) *)

(** Columns of [daily_snapshots] ([id] and [created_at] are set on insert
    and never read by the operations modelled here). *)
Record DailySnapshot := mkSnapshot {
  snap_date : Z;
  snap_make : string;
  snap_model : string;
  avg_price : option Q;
  min_price : option Q;
  max_price : option Q;
  listing_count : Z;
  craigslist_count : Z;
  mercadolibre_count : Z;
  facebook_count : Z
}.

(** The unique key [(date, make, model)]. *)
Definition snap_key (s : DailySnapshot) : Z * string * string :=
  (snap_date s, snap_make s, snap_model s).

(** [DailySnapshot.date == d, .make == mk, .model == md] *)
Definition is_key (d : Z) (mk md : string) (s : DailySnapshot) : bool :=
  Z.eqb (snap_date s) d && String.eqb (snap_make s) mk
  && String.eqb (snap_model s) md.

(** Mutating the object returned by [.first()]: the first matching row. *)
Fixpoint replace_first {A} (p : A -> bool) (f : A -> A) (l : list A)
    : list A :=
  match l with
  | [] => []
  | x :: r => if p x then f x :: r else x :: replace_first p f r
  end.

(* ------------------------------------------------------------------ *)
(** ** [create_daily_snapshot] *)

Definition pair_eqb (a b : string * string) : bool :=
  String.eqb (fst a) (fst b) && String.eqb (snd a) (snd b).

(** [.filter(make IS NOT NULL, model IS NOT NULL)] and the group key. *)
Definition group_key (l : Listing) : option (string * string) :=
  match make l, model l with
  | Some mk, Some md => Some (mk, md)
  | _, _ => None
  end.

(** The distinct group keys, in order of first appearance. *)
Fixpoint dedup_keys (acc : list (string * string)) (ls : list Listing)
    : list (string * string) :=
  match ls with
  | [] => rev acc
  | l :: r =>
      match group_key l with
      | Some k => if existsb (pair_eqb k) acc then dedup_keys acc r
                  else dedup_keys (k :: acc) r
      | None => dedup_keys acc r
      end
  end.

Definition in_group (k : string * string) (l : Listing) : bool :=
  match group_key l with Some k' => pair_eqb k k' | None => false end.

(** SQL [AVG], [MIN], [MAX] ignore NULLs and are NULL on no value. *)
Fixpoint non_null (xs : list (option Q)) : list Q :=
  match xs with
  | [] => []
  | Some q :: r => q :: non_null r
  | None :: r => non_null r
  end.

Definition Qsum (qs : list Q) : Q := fold_right Qplus 0 qs.

Definition sql_avg (xs : list (option Q)) : option Q :=
  match non_null xs with
  | [] => None
  | qs => Some (Qdiv (Qsum qs) (inject_Z (Z.of_nat (List.length qs))))
  end.

Definition qmin (a b : Q) : Q := if Qle_bool a b then a else b.
Definition qmax (a b : Q) : Q := if Qle_bool a b then b else a.

Definition sql_min (xs : list (option Q)) : option Q :=
  match non_null xs with
  | [] => None
  | q :: qs => Some (fold_left qmin qs q)
  end.

Definition sql_max (xs : list (option Q)) : option Q :=
  match non_null xs with
  | [] => None
  | q :: qs => Some (fold_left qmax qs q)
  end.

(** [SUM(CASE WHEN platform = p THEN 1 ELSE 0 END)] *)
Definition platform_count (p : string) (g : list Listing) : Z :=
  Z.of_nat (List.length (filter (fun l => match platform l with
                                     | Some q => String.eqb q p
                                     | None => false end) g)).

(** One row of the aggregate query (lines 42-58). *)
Record GroupRow := mkGroupRow {
  g_make : string;
  g_model : string;
  g_count : Z;
  g_avg : option Q;
  g_min : option Q;
  g_max : option Q;
  g_craigslist : Z;
  g_mercadolibre : Z;
  g_facebook : Z
}.

Definition group_row (ls : list Listing) (k : string * string) : GroupRow :=
  let g := filter (in_group k) ls in
  let ps := map price g in
  mkGroupRow (fst k) (snd k) (Z.of_nat (List.length g))
    (sql_avg ps) (sql_min ps) (sql_max ps)
    (platform_count "craigslist" g) (platform_count "mercadolibre" g)
    (platform_count "facebook" g).

Definition group_rows (ls : list Listing) : list GroupRow :=
  map (group_row ls) (dedup_keys [] ls).

(** [float(x) if x else None] *)
Definition float_or_none (x : option Q) : option Q :=
  if truthy x then x else None.

(** Lines 73-79: overwrite the aggregate fields of an existing row. *)
Definition overwrite_snapshot (row : GroupRow) (s : DailySnapshot)
    : DailySnapshot :=
  mkSnapshot (snap_date s) (snap_make s) (snap_model s)
    (float_or_none (g_avg row)) (float_or_none (g_min row))
    (float_or_none (g_max row)) (g_count row)
    (g_craigslist row) (g_mercadolibre row) (g_facebook row).

(** Lines 83-94: a new row. *)
Definition new_snapshot (d : Z) (row : GroupRow) : DailySnapshot :=
  mkSnapshot d (g_make row) (g_model row)
    (float_or_none (g_avg row)) (float_or_none (g_min row))
    (float_or_none (g_max row)) (g_count row)
    (g_craigslist row) (g_mercadolibre row) (g_facebook row).

(** The loop of lines 63-96: the table, [created_count],
    [updated_count]. The session autoflushes, so a row added earlier in
    the loop is visible to the later existence queries. *)
Fixpoint snapshot_loop (d : Z) (rows : list GroupRow)
    (snaps : list DailySnapshot) (created updated : Z)
    : list DailySnapshot * Z * Z :=
  match rows with
  | [] => (snaps, created, updated)
  | row :: rest =>
      let p := is_key d (g_make row) (g_model row) in
      match find p snaps with
      | Some _ =>
          snapshot_loop d rest (replace_first p (overwrite_snapshot row) snaps)
            created (updated + 1)
      | None =>
          snapshot_loop d rest (snaps ++ [new_snapshot d row])
            (created + 1) updated
      end
  end%Z.

Record SnapshotSummary := mkSummary {
  summary_date : Z;
  snapshots_created : Z;
  snapshots_updated : Z;
  total_cars : Z
}.

(** [create_daily_snapshot(d)] on the listings [ls]: the summary and
    the snapshot table after the commit. *)
Definition create_daily_snapshot (d : Z) (ls : list Listing)
    (snaps : list DailySnapshot) : SnapshotSummary * list DailySnapshot :=
  let rows := group_rows ls in
  let '(snaps', created, updated) := snapshot_loop d rows snaps 0 0 in
  (mkSummary d created updated (Z.of_nat (List.length rows)), snaps').

(** Sequential calls of [upsert_listing] by a single writer on a store
    that does not fail: [(datetime.utcnow(), listing_data)] per call. *)
Fixpoint run_upserts (calls : list (timestamp * ListingData))
    (db : list Listing) : list Listing :=
  match calls with
  | [] => db
  | (t, d) :: rest => run_upserts rest (snd (upsert_listing quiet_env t d db))
  end.

(* ------------------------------------------------------------------ *)
(** ** Sorting and slicing *)

(** Insertion of [x] after every element whose key is at least
    [key x]: the later of two equal keys stays behind. *)
Fixpoint insert_desc {A} (key : A -> Q) (x : A) (l : list A) : list A :=
  match l with
  | [] => [x]
  | y :: r => if Qle_bool (key x) (key y) then y :: insert_desc key x r
              else x :: y :: r
  end.

(** [l.sort(key=key, reverse=True)]: sorted by decreasing key, stable
    (equal keys keep their order). *)
Definition sort_desc {A} (key : A -> Q) (l : list A) : list A :=
  fold_left (fun acc x => insert_desc key x acc) l [].

(** [l[:n]] *)
Definition py_slice_to {A} (n : Z) (l : list A) : list A :=
  if Z.leb 0 n then firstn (Z.to_nat n) l
  else firstn (List.length l - Z.to_nat (- n)) l.

(** [a / b] on floats: [None] stands for the [ZeroDivisionError]. *)
Definition py_div (a b : Q) : option Q :=
  if Qeq_bool b 0 then None else Some (a / b).

(* ------------------------------------------------------------------ *)
(** ** [get_trending_cars] *)

Record TrendEntry := mkTrend {
  t_make : string;
  t_model : string;
  old_price : Q;
  new_price : Q;
  change : Q;
  change_pct : Q;
  direction : string;
  t_listing_count : Z
}.

Definition is_some {A} (x : option A) : bool :=
  match x with Some _ => true | None => false end.

(** Lines 207-212: the comparison snapshot. *)
Definition comparison_snapshot (cmp : Z) (snaps : list DailySnapshot)
    (ts : DailySnapshot) : option DailySnapshot :=
  find (fun s => is_key cmp (snap_make ts) (snap_model ts) s
                 && is_some (avg_price s)) snaps.

(** Lines 214-227 for one snapshot of today whose comparison snapshot
    has price [p] and which has price [t]. *)
Definition trend_entry (ts : DailySnapshot) (p t : Q) : option TrendEntry :=
  let ch := (t - p)%Q in
  match py_div ch p with
  | None => None
  | Some q =>
      Some (mkTrend (snap_make ts) (snap_model ts) p t (py_round 2 ch)
              (py_round 2 (q * 100)%Q)
              (if Qlt_le_dec 0 ch then "up" else "down")
              (listing_count ts))
  end.

(** The loop of lines 205-227; [None] when an exception escapes. *)
Fixpoint trending_loop (cmp : Z) (snaps todays : list DailySnapshot)
    : option (list TrendEntry) :=
  match todays with
  | [] => Some []
  | ts :: rest =>
      let skip := trending_loop cmp snaps rest in
      match comparison_snapshot cmp snaps ts with
      | Some os =>
          match avg_price os, avg_price ts with
          | Some p, Some t =>
              if negb (Qeq_bool p 0) && negb (Qeq_bool t 0) then
                match trend_entry ts p t, skip with
                | Some e, Some es => Some (e :: es)
                | _, _ => None
                end
              else skip
          | _, _ => skip
          end
      | None => skip
      end
  end.

(** [get_trending_cars(days, limit)] on the snapshot table, with
    [date.today() = today]; [None] when an exception escapes. *)
Definition get_trending_cars (today days limit : Z)
    (snaps : list DailySnapshot) : option (list TrendEntry) :=
  let cmp := (today - days)%Z in
  let todays := filter (fun s => Z.eqb (snap_date s) today
                                 && is_some (avg_price s)) snaps in
  match trending_loop cmp snaps todays with
  | None => None
  | Some es => Some (py_slice_to limit (sort_desc (fun e => py_abs (change e)) es))
  end.

(* ------------------------------------------------------------------ *)
(** ** [get_market_overview] *)

Record MostListed := mkMostListed {
  ml_make : string;
  ml_model : string;
  avg_listings : Q;
  days_present : Z
}.

Record MarketOverview := mkOverview {
  total_unique_cars : Z;
  avg_market_price : option Q;
  total_snapshots : Z;
  start_date : Z;
  end_date : Z;
  most_listed : list MostListed
}.

Definition car_of (s : DailySnapshot) : string * string :=
  (snap_make s, snap_model s).

Definition pair_dec : forall a b : string * string, {a = b} + {a <> b}.
Proof. decide equality; apply string_dec. Defined.

(** [set.add(d)] on a set of dates, as a duplicate-free list. *)
Definition set_add_date (d : Z) (ds : list Z) : list Z :=
  if existsb (Z.eqb d) ds then ds else ds ++ [d].

(** The dicts [car_listings] and [car_days] get their keys together, in
    the same order; one association list in insertion order holds both
    values. *)
Definition CarStats := list ((string * string) * (Z * list Z)).

Fixpoint assoc_lookup (k : string * string) (acc : CarStats)
    : option (Z * list Z) :=
  match acc with
  | [] => None
  | (k', v) :: r => if pair_eqb k' k then Some v else assoc_lookup k r
  end.

Definition assoc_update (k : string * string)
    (f : Z * list Z -> Z * list Z) (acc : CarStats) : CarStats :=
  map (fun e => if pair_eqb (fst e) k then (fst e, f (snd e)) else e) acc.

(** One iteration of lines 297-303. *)
Definition car_step (acc : CarStats) (s : DailySnapshot) : CarStats :=
  let k := car_of s in
  let acc1 := match assoc_lookup k acc with
              | Some _ => acc
              | None => acc ++ [(k, (0%Z, []))]
              end in
  assoc_update k (fun v => (fst v + listing_count s, set_add_date (snap_date s) (snd v)))%Z
    acc1.

(** [prices = [snap.avg_price for snap in snapshots if snap.avg_price]] *)
Fixpoint py_prices (snaps : list DailySnapshot) : list Q :=
  match snaps with
  | [] => []
  | s :: r => if truthy (avg_price s) then
                match avg_price s with Some q => q :: py_prices r | None => py_prices r end
              else py_prices r
  end.

(** Lines 306-314: one [most_listed] entry. *)
Definition most_listed_entry (e : (string * string) * (Z * list Z)) : MostListed :=
  let '(k, (total, ds)) := e in
  let dp := Z.of_nat (List.length ds) in
  let a := if Z.ltb 0 dp then Qdiv (inject_Z total) (inject_Z dp) else 0 in
  mkMostListed (fst k) (snd k) (py_round 1 a) dp.

(** Lines 288-327: the overview of a non-empty list [inr] of the
    snapshots in [[start, today]]. *)
Definition overview_of (start today : Z) (inr : list DailySnapshot)
    : MarketOverview :=
  let unique_cars := nodup pair_dec (map car_of inr) in
  let prices := py_prices inr in
  let avg_price := match prices with
                   | [] => None
                   | _ => Some (Qdiv (Qsum prices)
                                     (inject_Z (Z.of_nat (List.length prices))))
                   end in
  let stats := fold_left car_step inr [] in
  let ml := sort_desc avg_listings (map most_listed_entry stats) in
  mkOverview (Z.of_nat (List.length unique_cars))
    (if truthy avg_price then option_map (py_round 2) avg_price else None)
    (Z.of_nat (List.length inr)) start today (py_slice_to 10 ml).

(** [get_market_overview(days)] with [date.today() = today]. *)
Definition get_market_overview (today days : Z) (snaps : list DailySnapshot)
    : MarketOverview :=
  let start := (today - days)%Z in
  let inr := filter (fun s => Z.leb start (snap_date s)
                              && Z.leb (snap_date s) today) snaps in
  match inr with
  | [] => mkOverview 0 None 0 start today []
  | _ => overview_of start today inr
  end.

Definition car_upd (s : DailySnapshot) (v : Z * list Z) : Z * list Z :=
  (fst v + listing_count s, set_add_date (snap_date s) (snd v))%Z.








(* ------------------------------------------------------------------ *)
(** ** [cleanup_service]: [cleanup_old_listings], [cleanup_old_snapshots] *)

(** Where a database call raises, if it does. [FailDelete n] fails after
    the bulk [DELETE] has removed [n] of the matching rows. *)
Inductive Fault :=
| NoFault
| FailCount          (* the [count()] of lines 54-56 / 117-119 *)
| FailDelete (n : nat)
| FailCommit
| FailRemaining.     (* the [count()] of lines 76 / 139, after the commit *)

Section Cleanup.
Context {R : Type}.

(** A session: the committed rows and the rows seen inside the open
    transaction. *)
Record Sess := mkSess { committed : list R; pending : list R }.

Definition begin (store : list R) : Sess := mkSess store store.
Definition rollback (s : Sess) : Sess := mkSess (committed s) (committed s).
Definition commit (s : Sess) : Sess := mkSess (pending s) (pending s).

(** [DELETE ... WHERE] on the first [n] matching rows. *)
Fixpoint delete_first (old : R -> bool) (n : nat) (l : list R) : list R :=
  match l with
  | [] => []
  | x :: r => if old x then match n with
                            | O => l
                            | S n' => delete_first old n' r
                            end
              else x :: delete_first old n r
  end.

(** [query.filter(old).delete()]: the new session and the row count, or the
    session as the failure left it. *)
Definition delete_where (old : R -> bool) (f : Fault) (s : Sess)
    : Sess + (Sess * Z) :=
  match f with
  | FailDelete n => inl (mkSess (committed s) (delete_first old n (pending s)))
  | _ => inr (mkSess (committed s) (filter (fun r => negb (old r)) (pending s)),
              Z.of_nat (List.length (filter old (pending s))))
  end.

Definition is_fail_count (f : Fault) : bool :=
  match f with FailCount => true | _ => false end.
Definition is_fail_commit (f : Fault) : bool :=
  match f with FailCommit => true | _ => false end.
Definition is_fail_remaining (f : Fault) : bool :=
  match f with FailRemaining => true | _ => false end.

(** The body shared by both cleanups, from the [try] to the [finally]:
    [(deleted_count, remaining_count)] or the re-raised error, and the
    committed rows once the session is closed. The [except] branch calls
    [db.rollback()] before [raise]. *)
Definition cleanup_run (old : R -> bool) (f : Fault) (store : list R)
    : result (Z * option Z) * list R :=
  let s0 := begin store in
  if is_fail_count f then (Err PersistenceError, committed (rollback s0)) else
  let to_delete := Z.of_nat (List.length (filter old (pending s0))) in
  if Z.eqb to_delete 0 then (Ok (0%Z, None), committed s0) else
  match delete_where old f s0 with
  | inl s1 => (Err PersistenceError, committed (rollback s1))
  | inr (s1, deleted) =>
      if is_fail_commit f then (Err PersistenceError, committed (rollback s1)) else
      let s2 := commit s1 in
      if is_fail_remaining f then (Err PersistenceError, committed (rollback s2)) else
      (Ok (deleted, Some (Z.of_nat (List.length (pending s2)))), committed s2)
  end.

End Cleanup.

Record CleanupResult := mkCleanup {
  deleted_count : Z;
  remaining_count : option Z;   (* absent on the early return *)
  retention_days : Z;
  cutoff_date : Z
}.

Definition map_result {A B} (g : A -> B) (r : result A) : result B :=
  match r with Ok a => Ok (g a) | Err e => Err e end.

(** [Listing.last_seen < cutoff_date]; a NULL [last_seen] never matches. *)
Definition listing_old (cutoff : timestamp) (l : Listing) : bool :=
  match last_seen l with Some t => Z.ltb t cutoff | None => false end.

(** [cleanup_old_listings(retention_days)] with [datetime.utcnow() = now].
    Building the filter of line 55 reads [Listing.last_seen] inside the
    [try]: when the attribute is not mapped this raises [AttributeError]
    before any query runs, and the [except] branch rolls back and
    re-raises. *)
Definition cleanup_old_listings (f : Fault) (now : timestamp) (rd : Z)
    (store : list Listing) : result CleanupResult * list Listing :=
  let cutoff := (now - timedelta_days rd)%Z in
  if mapped "last_seen" then
    let '(r, st) := cleanup_run (listing_old cutoff) f store in
    (map_result (fun p => mkCleanup (fst p) (snd p) rd cutoff) r, st)
  else (Err AttributeError, committed (rollback (begin store))).

(** [DailySnapshot.date < cutoff_date.date()] *)
Definition snapshot_old (cutoff : Z) (s : DailySnapshot) : bool :=
  Z.ltb (snap_date s) cutoff.

(** [cleanup_old_snapshots(retention_days)] with [datetime.utcnow() = now]. *)
Definition cleanup_old_snapshots (f : Fault) (now : timestamp) (rd : Z)
    (store : list DailySnapshot) : result CleanupResult * list DailySnapshot :=
  let cutoff := to_date (now - timedelta_days rd)%Z in
  let '(r, st) := cleanup_run (snapshot_old cutoff) f store in
  (map_result (fun p => mkCleanup (fst p) (snd p) rd cutoff) r, st).

(** Two listings last seen one second either side of the cutoff
    [now - 90 days], with [now] at day 1000. *)
Definition c6_now : timestamp := (1000 * usec_per_day)%Z.

Definition c6_listing (u : string) (t : timestamp) : Listing :=
  mkListing (Some "craigslist"%string) (Some "Honda Civic"%string) u (Some 15000)
    (Some "Honda"%string) (Some "Civic"%string) (Some 2015%Z) None None None None
    t (Some t) (Some t).

Definition c6_store : list Listing :=
  [ c6_listing "u1"%string (c6_now - timedelta_days 90 - usec_per_second)%Z;
    c6_listing "u2"%string (c6_now - timedelta_days 90 + usec_per_second)%Z ].

(* ------------------------------------------------------------------ *)
(** ** [get_price_trend] *)

(** Insert into a list sorted by increasing [key], after the equal keys. *)
Fixpoint insert_asc {A} (key : A -> Z) (x : A) (l : list A) : list A :=
  match l with
  | [] => [x]
  | y :: r => if Z.leb (key y) (key x) then y :: insert_asc key x r
              else x :: y :: r
  end.

(** [ORDER BY key ASC]; rows with equal keys (none for [get_price_trend]
    under the unique constraint) stay in table order. *)
Definition sort_asc {A} (key : A -> Z) (l : list A) : list A :=
  fold_left (fun acc x => insert_asc key x acc) l [].

(** One dict of the list built at lines 147-159. *)
Record TrendPoint := mkPoint {
  p_date : Z;
  p_avg_price : option Q;
  p_listing_count : Z;
  p_min_price : option Q;
  p_max_price : option Q;
  p_craigslist_count : Z;
  p_mercadolibre_count : Z;
  p_facebook_count : Z
}.

Definition to_point (s : DailySnapshot) : TrendPoint :=
  mkPoint (snap_date s) (avg_price s) (listing_count s) (min_price s)
    (max_price s) (craigslist_count s) (mercadolibre_count s)
    (facebook_count s).

(** [get_price_trend(make, model, days)] with [date.today() = today]. *)
Definition get_price_trend (today : Z) (mk md : string) (days : Z)
    (snaps : list DailySnapshot) : list TrendPoint :=
  let start_date := (today - days)%Z in
  map to_point
    (sort_asc snap_date
       (filter (fun s => String.eqb (snap_make s) mk && String.eqb (snap_model s) md
                         && Z.leb start_date (snap_date s)) snaps)).

(* ------------------------------------------------------------------ *)
(** ** [listing_lifecycle_service]: active, inactive, stats *)

(** [Listing.last_seen >= cutoff]; a NULL [last_seen] never matches. *)
Definition seen_since (cutoff : timestamp) (l : Listing) : bool :=
  match last_seen l with Some t => Z.leb cutoff t | None => false end.

(** [get_active_listings(days_old)] with [datetime.utcnow() = now]. The
    filter of line 139 reads [Listing.last_seen]; the function has no
    [except], so an [AttributeError] propagates. *)
Definition get_active_listings (now days_old : Z) (ls : list Listing)
    : result (list Listing) :=
  if mapped "last_seen" then
    Ok (filter (seen_since (now - timedelta_days days_old)%Z) ls)
  else Err AttributeError.

(** [get_inactive_listings(days_old)]: [Listing.last_seen < cutoff]
    (line 165). *)
Definition get_inactive_listings (now days_old : Z) (ls : list Listing)
    : result (list Listing) :=
  if mapped "last_seen" then
    Ok (filter (listing_old (now - timedelta_days days_old)%Z) ls)
  else Err AttributeError.

(** SQLite [julianday] of a timestamp counted in microseconds from the
    Unix epoch (day 2440587.5 of the Julian calendar). *)
Definition julianday (t : timestamp) : Q :=
  (4881175 # 2) + inject_Z t / inject_Z usec_per_day.

(** [julianday(last_seen) - julianday(first_seen)]; NULL if either is. *)
Definition days_active (l : Listing) : option Q :=
  match last_seen l, first_seen l with
  | Some a, Some b => Some (julianday a - julianday b)
  | _, _ => None
  end.

Record ListingStats := mkListingStats {
  total_listings : Z;
  active_last_7_days : Z;
  inactive_7_days : Z;
  average_days_active : Q
}.

(** [get_listing_stats()] with [datetime.utcnow() = now]. Line 191 reads
    [Listing.last_seen], line 196 [Listing.first_seen]. *)
Definition get_listing_stats (now : timestamp) (ls : list Listing)
    : result ListingStats :=
  let week_ago := (now - timedelta_days 7)%Z in
  let total := Z.of_nat (List.length ls) in
  if negb (mapped "last_seen") then Err AttributeError else
  let active := Z.of_nat (List.length (filter (seen_since week_ago) ls)) in
  let inactive := (total - active)%Z in
  if negb (mapped "first_seen") then Err AttributeError else
  let avg := sql_avg (map days_active ls) in
  (* [... .scalar() or 0] *)
  let avg_days := if truthy avg then match avg with Some q => q | None => 0 end
                  else 0 in
  Ok (mkListingStats total active inactive (py_round 1 avg_days)).

(* ------------------------------------------------------------------ *)
(** ** [cleanup_all], [get_cleanup_stats] *)

Record CleanupAllResult := mkCleanupAll {
  ca_timestamp : timestamp;
  ca_listings : CleanupResult;
  ca_snapshots : CleanupResult;
  total_deleted : Z
}.

(** [cleanup_all()] with the retention periods [lrd], [srd] of the
    environment, the faults [fl], [fs] of the two calls and the clock
    [t1], [t2], [t3] read by the two cleanups and by line 173: the result
    and both tables. An exception of the first call propagates before the
    second one runs. *)
Definition cleanup_all (lrd srd : Z) (fl fs : Fault) (t1 t2 t3 : timestamp)
    (ls : list Listing) (ss : list DailySnapshot)
    : result CleanupAllResult * (list Listing * list DailySnapshot) :=
  let '(rl, ls') := cleanup_old_listings fl t1 lrd ls in
  match rl with
  | Err e => (Err e, (ls', ss))
  | Ok a =>
      let '(rs, ss') := cleanup_old_snapshots fs t2 srd ss in
      match rs with
      | Err e => (Err e, (ls', ss'))
      | Ok b => (Ok (mkCleanupAll t3 a b (deleted_count a + deleted_count b)),
                 (ls', ss'))
      end
  end.

(** The values of a column that are not NULL. *)
Fixpoint somes {A} (xs : list (option A)) : list A :=
  match xs with
  | [] => []
  | Some x :: r => x :: somes r
  | None :: r => somes r
  end.

(** SQL [MIN] and [MAX] on an integer-valued column. *)
Definition sql_zmin (xs : list (option Z)) : option Z :=
  match somes xs with [] => None | x :: r => Some (fold_left Z.min r x) end.
Definition sql_zmax (xs : list (option Z)) : option Z :=
  match somes xs with [] => None | x :: r => Some (fold_left Z.max r x) end.

(** The statistics of [get_cleanup_stats()], dates before [isoformat]
    (the [retention_policy] part only echoes the two settings). *)
Record CleanupStats := mkCleanupStats {
  cs_total : Z;
  cs_last_7_days : Z;
  cs_last_30_days : Z;
  cs_last_90_days : Z;
  cs_older_than_90_days : Z;
  cs_oldest_date : option timestamp;
  cs_newest_date : option timestamp;
  cs_snapshots_total : Z;
  cs_snapshots_oldest : option Z;
  cs_snapshots_newest : option Z
}.

(** [get_cleanup_stats()] with [datetime.utcnow() = now]. Line 200
    reads [Listing.last_seen] in [func.min(...)]; the function has no
    [except]. *)
Definition get_cleanup_stats (now : timestamp) (ls : list Listing)
    (ss : list DailySnapshot) : result CleanupStats :=
  let count_since c := Z.of_nat (List.length (filter (seen_since c) ls)) in
  let total_listings := Z.of_nat (List.length ls) in
  if negb (mapped "last_seen") then Err AttributeError else
  let last_week := count_since (now - timedelta_days 7)%Z in
  let last_month := count_since (now - timedelta_days 30)%Z in
  let last_quarter := count_since (now - timedelta_days 90)%Z in
  Ok (mkCleanupStats total_listings last_week last_month last_quarter
    (total_listings - last_quarter)%Z
    (sql_zmin (map last_seen ls)) (sql_zmax (map last_seen ls))
    (Z.of_nat (List.length ss))
    (sql_zmin (map (fun s => Some (snap_date s)) ss))
    (sql_zmax (map (fun s => Some (snap_date s)) ss))).

(** The matching rows of [get_price_trend], in table order. *)
Definition trend_rows (today : Z) (mk md : string) (days : Z)
    (snaps : list DailySnapshot) : list DailySnapshot :=
  filter (fun s => String.eqb (snap_make s) mk && String.eqb (snap_model s) md
                   && Z.leb (today - days) (snap_date s)) snaps.

(* ------------------------------------------------------------------ *)
(** ** Example inputs and auxiliary predicates *)

(** [a] may precede [b] in a list sorted by decreasing [key]. *)
Definition desc {A} (key : A -> Q) (a b : A) : Prop := key b <= key a.

Definition row_key (row : GroupRow) : string * string :=
  (g_make row, g_model row).

(** Example input for C1: two Civic listings and one Camry listing, a
    snapshot table already holding a (different) Civic row for the
    date. *)
Definition civic_listing (p : option Q) (pl : string) (u : string) : Listing :=
  mkListing (Some pl) (Some "Civic"%string) u p (Some "Honda"%string)
    (Some "Civic"%string) None None None None None 0%Z (Some 0%Z) (Some 0%Z).

Definition c1_listings : list Listing :=
  [civic_listing (Some 18000) "craigslist" "a";
   civic_listing None "facebook" "b";
   mkListing (Some "craigslist"%string) (Some "Camry"%string) "c" (Some 21000)
     (Some "Toyota"%string) (Some "Camry"%string) None None None None None
     0%Z (Some 0%Z) (Some 0%Z)].

Definition c1_snapshots : list DailySnapshot :=
  [mkSnapshot 7 "Honda" "Civic" (Some 1) (Some 1) (Some 1) 9 9 0 0;
   mkSnapshot 6 "Honda" "Civic" (Some 2) (Some 2) (Some 2) 1 1 0 0].

(** A row [r'] that differs from [r] at most in [title], [price],
    [views], [likes], [comments], [scraped_at] and [last_seen]. *)
Definition upsert_frame (r r' : Listing) : Prop :=
  r' = mkListing (platform r) (title r') (url r) (price r') (make r)
         (model r) (year r) (mileage r) (views r') (likes r') (comments r')
         (scraped_at r') (first_seen r) (last_seen r').

Definition c9_row : Listing :=
  mkListing (Some "craigslist"%string) (Some "2015 Honda Civic"%string) "u"
    (Some 15000) (Some "Honda"%string) (Some "Civic"%string) (Some 2015%Z)
    (Some 80000%Z) None None None 100%Z (Some 100%Z) (Some 100%Z).

(** A re-observation that carries other descriptive values. *)
Definition c9_data : ListingData :=
  mkData (Some "u"%string) (Some (Some "facebook"%string))
    (Some (Some "2016 Toyota Camry"%string)) (Some (Some 14000))
    (Some (Some "Toyota"%string)) (Some (Some "Camry"%string))
    (Some (Some 2016%Z)) (Some (Some 1%Z)) (Some (Some 50%Z)) None None.

(** Two calls for url ["u"] on an empty table: the insert at time 100,
    then the re-observation [c9_data] at time 200. *)
Definition c5_first : ListingData :=
  mkData (Some "u"%string) (Some (Some "craigslist"%string))
    (Some (Some "2015 Honda Civic"%string)) (Some (Some 15000))
    (Some (Some "Honda"%string)) (Some (Some "Civic"%string))
    (Some (Some 2015%Z)) None None None None.

(** The entry of lines 218-227, when [p] is not zero. *)
Definition trend_value (ts : DailySnapshot) (p t : Q) : TrendEntry :=
  mkTrend (snap_make ts) (snap_model ts) p t (py_round 2 (t - p))
    (py_round 2 ((t - p) / p * 100))
    (if Qlt_le_dec 0 (t - p) then "up" else "down") (listing_count ts).

Definition c4_snapshots : list DailySnapshot :=
  [mkSnapshot 100 "Honda" "Civic" (Some (55000 # 3)) (Some 15000) (Some 21000) 3 3 0 0;
   mkSnapshot 93 "Honda" "Civic" (Some 18000) (Some 16000) (Some 20000) 3 2 1 0;
   mkSnapshot 100 "Toyota" "Camry" (Some 20000) (Some 20000) (Some 20000) 1 1 0 0;
   mkSnapshot 93 "Toyota" "Camry" (Some 0) (Some 0) (Some 0) 1 1 0 0].

(** A first observation of url ["v"] without a title. *)
Definition untitled_data : ListingData :=
  mkData (Some "v"%string) (Some (Some "facebook"%string)) (Some None)
    (Some (Some 9000)) None None None None None None None.

(** A re-observation of url ["u"] whose title is [None], with a new price
    and view count. *)
Definition null_title_update : ListingData :=
  mkData (Some "u"%string) None (Some None) (Some (Some 14000)) None None
    None None (Some (Some 50%Z)) None None.

(* ================================================================== *)
(** * Proofs *)
(* ================================================================== *)

(** [NoDup] of a concrete list of distinct closed values. *)
Ltac nodup_concrete :=
  simpl;
  repeat (apply NoDup_cons; [simpl; intuition discriminate|]);
  apply NoDup_nil.

(* ------------------------------------------------------------------ *)
(** ** Lists *)

Section FindLemmas.
Context {A : Type}.

Lemma find_app_l (p : A -> bool) (l m : list A) (x : A) :
  find p l = Some x -> find p (l ++ m) = Some x.
Proof.
  induction l as [|a l IH]; simpl; [discriminate|].
  destruct (p a); auto.
Qed.

Lemma find_app_single_false (p : A -> bool) (l : list A) (y : A) :
  p y = false -> find p (l ++ [y]) = find p l.
Proof.
  intros Hy; induction l as [|a l IH]; simpl.
  - now rewrite Hy.
  - destruct (p a); auto.
Qed.

Lemma find_app_single_none (p : A -> bool) (l : list A) (y : A) :
  find p l = None -> p y = true -> find p (l ++ [y]) = Some y.
Proof.
  intros Hn Hy; induction l as [|a l IH]; simpl in *.
  - now rewrite Hy.
  - destruct (p a); [discriminate|auto].
Qed.

Lemma replace_first_fixed (p : A -> bool) (f : A -> A) (l : list A) (x : A) :
  find p l = Some x -> f x = x -> replace_first p f l = l.
Proof.
  induction l as [|a l IH]; simpl; [discriminate|].
  destruct (p a) eqn:Ha.
  - intros [= ->] Hf; now rewrite Hf.
  - intros Hx Hf; now rewrite IH.
Qed.

Lemma find_replace_first_same (p : A -> bool) (f : A -> A) (l : list A)
    (x : A) :
  find p l = Some x -> p (f x) = true -> find p (replace_first p f l) = Some (f x).
Proof.
  induction l as [|a l IH]; simpl; [discriminate|].
  destruct (p a) eqn:Ha.
  - intros [= ->] Hf; simpl; now rewrite Hf.
  - intros Hx Hf; simpl; rewrite Ha; auto.
Qed.

Lemma find_replace_first_other (p q : A -> bool) (f : A -> A) (l : list A) :
  (forall x, q x = true -> p x = false /\ p (f x) = false) ->
  find p (replace_first q f l) = find p l.
Proof.
  intros H; induction l as [|a l IH]; simpl; auto.
  destruct (q a) eqn:Hq.
  - destruct (H a Hq) as [H1 H2]; simpl; now rewrite H1, H2.
  - simpl; destruct (p a); auto.
Qed.

Lemma map_replace_first (B : Type) (g : A -> B) (p : A -> bool) (f : A -> A)
    (l : list A) :
  (forall x, g (f x) = g x) -> map g (replace_first p f l) = map g l.
Proof.
  intros H; induction l as [|a l IH]; simpl; auto.
  destruct (p a); simpl; rewrite ?H, ?IH; auto.
Qed.

End FindLemmas.

(* ------------------------------------------------------------------ *)
(** ** Keys *)

Lemma pair_eqb_spec (a b : string * string) : pair_eqb a b = true <-> a = b.
Proof.
  destruct a as [a1 a2], b as [b1 b2]; unfold pair_eqb; simpl.
  rewrite andb_true_iff, !String.eqb_eq; split.
  - now intros [-> ->].
  - now intros [= -> ->].
Qed.

Lemma is_key_spec (d : Z) (mk md : string) (s : DailySnapshot) :
  is_key d mk md s = true <-> snap_key s = (d, mk, md).
Proof.
  unfold is_key, snap_key; rewrite !andb_true_iff, Z.eqb_eq, !String.eqb_eq.
  split.
  - now intros [[-> ->] ->].
  - now intros [= -> -> ->].
Qed.

Lemma overwrite_new_snapshot (d : Z) (row : GroupRow) (s : DailySnapshot) :
  is_key d (g_make row) (g_model row) s = true ->
  overwrite_snapshot row s = new_snapshot d row.
Proof.
  rewrite is_key_spec; unfold snap_key, overwrite_snapshot, new_snapshot.
  destruct s; simpl; now intros [= -> -> ->].
Qed.

Lemma snap_key_overwrite (row : GroupRow) (s : DailySnapshot) :
  snap_key (overwrite_snapshot row s) = snap_key s.
Proof. reflexivity. Qed.

Lemma dedup_keys_nodup (acc : list (string * string)) (ls : list Listing) :
  NoDup acc -> NoDup (dedup_keys acc ls).
Proof.
  revert acc; induction ls as [|l ls IH]; intros acc Hacc; simpl.
  - now apply NoDup_rev.
  - destruct (group_key l) as [k|]; auto.
    destruct (existsb (pair_eqb k) acc) eqn:He; auto.
    apply IH; constructor; auto.
    intros Hin.
    assert (existsb (pair_eqb k) acc = true) as Ht.
    { apply existsb_exists; exists k; split; auto; now apply pair_eqb_spec. }
    congruence.
Qed.

Lemma group_rows_keys (ls : list Listing) :
  map row_key (group_rows ls) = dedup_keys [] ls.
Proof.
  unfold group_rows; rewrite map_map.
  induction (dedup_keys [] ls) as [|[a b] r IH]; simpl; f_equal; auto.
Qed.

Lemma group_rows_nodup (ls : list Listing) : NoDup (map row_key (group_rows ls)).
Proof. rewrite group_rows_keys; apply dedup_keys_nodup; constructor. Qed.

(* ------------------------------------------------------------------ *)
(** ** The snapshot loop *)

Section SnapshotLoop.
Variable d : Z.

Lemma new_snapshot_key (row : GroupRow) :
  snap_key (new_snapshot d row) = (d, g_make row, g_model row).
Proof. reflexivity. Qed.

Lemma is_key_other (row : GroupRow) (mk md : string) (x : DailySnapshot) :
  row_key row <> (mk, md) ->
  is_key d (g_make row) (g_model row) x = true -> is_key d mk md x = false.
Proof.
  intros Hne Hx; apply not_true_iff_false; intros Hy.
  apply is_key_spec in Hx; apply is_key_spec in Hy.
  rewrite Hx in Hy; inversion Hy; subst.
  apply Hne; unfold row_key; congruence.
Qed.

Lemma loop_preserves_find (rows : list GroupRow) (mk md : string) :
  (forall r, In r rows -> row_key r <> (mk, md)) ->
  forall snaps c u,
  find (is_key d mk md) (fst (fst (snapshot_loop d rows snaps c u)))
  = find (is_key d mk md) snaps.
Proof.
  induction rows as [|row rows IH]; intros Hk snaps c u; simpl; auto.
  assert (Hne : row_key row <> (mk, md)) by (apply Hk; left; auto).
  destruct (find (is_key d (g_make row) (g_model row)) snaps).
  - rewrite IH by (intros r Hr; apply Hk; right; auto).
    apply find_replace_first_other; intros x Hx; split.
    + exact (is_key_other row mk md x Hne Hx).
    + apply (is_key_other row mk md _ Hne).
      apply is_key_spec; apply is_key_spec in Hx.
      now rewrite snap_key_overwrite.
  - rewrite IH by (intros r Hr; apply Hk; right; auto).
    apply find_app_single_false.
    apply not_true_iff_false; intros Hy; apply is_key_spec in Hy.
    rewrite new_snapshot_key in Hy; inversion Hy; subst.
    apply Hne; unfold row_key; congruence.
Qed.

Lemma loop_stores (rows : list GroupRow) :
  NoDup (map row_key rows) ->
  forall snaps c u row, In row rows ->
  find (is_key d (g_make row) (g_model row))
       (fst (fst (snapshot_loop d rows snaps c u)))
  = Some (new_snapshot d row).
Proof.
  induction rows as [|r rows IH]; intros Hnd snaps c u row Hin; [destruct Hin|].
  simpl in Hnd; inversion Hnd as [|? ? Hnotin Hnd']; subst.
  destruct Hin as [<-|Hin].
  - assert (Hk : forall r', In r' rows -> row_key r' <> (g_make r, g_model r)).
    { intros r' Hr' Heq. apply Hnotin.
      change (g_make r, g_model r) with (row_key r) in Heq.
      rewrite <- Heq; now apply in_map. }
    simpl.
    destruct (find (is_key d (g_make r) (g_model r)) snaps) as [x|] eqn:Hf;
      rewrite loop_preserves_find by exact Hk.
    + rewrite (find_replace_first_same _ _ _ x Hf).
      * f_equal; apply overwrite_new_snapshot.
        now apply find_some in Hf.
      * apply is_key_spec; rewrite snap_key_overwrite.
        apply find_some in Hf; now apply is_key_spec.
    + apply find_app_single_none; auto.
      apply is_key_spec; apply new_snapshot_key.
  - simpl; destruct (find _ snaps); apply IH; auto.
Qed.

Lemma loop_fixed (rows : list GroupRow) :
  forall snaps c u,
  (forall row, In row rows ->
     find (is_key d (g_make row) (g_model row)) snaps = Some (new_snapshot d row)) ->
  snapshot_loop d rows snaps c u = (snaps, c, u + Z.of_nat (List.length rows))%Z.
Proof.
  induction rows as [|row rows IH]; intros snaps c u H; simpl.
  - now rewrite Z.add_0_r.
  - rewrite (H row (or_introl eq_refl)).
    rewrite (replace_first_fixed _ _ _ _ (H row (or_introl eq_refl))).
    2:{ apply overwrite_new_snapshot, is_key_spec, new_snapshot_key. }
    rewrite IH by (intros r Hr; apply H; right; auto).
    replace (u + 1 + Z.of_nat (List.length rows))%Z
      with (u + Z.of_nat (S (List.length rows)))%Z by lia.
    reflexivity.
Qed.

Lemma loop_nodup (rows : list GroupRow) :
  forall snaps c u,
  NoDup (map snap_key snaps) ->
  NoDup (map snap_key (fst (fst (snapshot_loop d rows snaps c u)))).
Proof.
  induction rows as [|row rows IH]; intros snaps c u Hnd; simpl; auto.
  destruct (find (is_key d (g_make row) (g_model row)) snaps) eqn:Hf.
  - apply IH; rewrite map_replace_first; auto.
  - apply IH; rewrite map_app; simpl.
    apply NoDup_app; auto.
    + constructor; [intros []|constructor].
    + intros k Hk Hk'; destruct Hk' as [<-|[]].
      apply in_map_iff in Hk as [s [Hs Hin]].
      pose proof (find_none _ _ Hf s Hin) as Hfalse.
      rewrite <- not_true_iff_false in Hfalse; apply Hfalse.
      apply is_key_spec; rewrite Hs; apply new_snapshot_key.
Qed.

End SnapshotLoop.

(* ------------------------------------------------------------------ *)
(** ** Snapshot generation *)

(** C1: snapshot generation is idempotent. On a snapshot table that
    satisfies its unique constraint on [(date, make, model)], running
    [create_daily_snapshot d] a second time on the same listings creates
    no row, updates one row per group, leaves the whole table (every
    aggregate value) exactly as the first run left it, and the unique
    constraint still holds. *)
Theorem create_daily_snapshot_idempotent (d : Z) (ls : list Listing)
    (snaps : list DailySnapshot) (Huniq : NoDup (map snap_key snaps)) :
  let '(r1, s1) := create_daily_snapshot d ls snaps in
  let '(r2, s2) := create_daily_snapshot d ls s1 in
  snapshots_created r2 = 0%Z /\ snapshots_updated r2 = total_cars r1
  /\ s2 = s1 /\ NoDup (map snap_key s2).
Proof.
  unfold create_daily_snapshot.
  destruct (snapshot_loop d (group_rows ls) snaps 0 0) as [[s1 c] u] eqn:E1.
  pose proof (loop_stores d (group_rows ls) (group_rows_nodup ls) snaps 0 0)
    as Hst.
  pose proof (loop_nodup d (group_rows ls) snaps 0 0 Huniq) as Hnd.
  rewrite E1 in Hst, Hnd; simpl in Hst, Hnd.
  rewrite (loop_fixed d (group_rows ls) s1 0 0 Hst); simpl.
  repeat split; auto.
Qed.

Lemma create_daily_snapshot_idempotent_witness :
  NoDup (map snap_key c1_snapshots) /\
  (let '(r1, s1) := create_daily_snapshot 7 c1_listings c1_snapshots in
   let '(r2, s2) := create_daily_snapshot 7 c1_listings s1 in
   snapshots_created r2 = 0%Z /\ snapshots_updated r2 = total_cars r1
   /\ s2 = s1 /\ NoDup (map snap_key s2)).
Proof.
  assert (H : NoDup (map snap_key c1_snapshots)).
  { simpl; constructor; [simpl; intros [H|[]]; discriminate|].
    constructor; [intros []|constructor]. }
  split; [exact H|].
  exact (create_daily_snapshot_idempotent 7 c1_listings c1_snapshots H).
Defined.

(** C2 (evaluation at the failing input): in a (Honda, Civic) group with
    prices [0] and [20000], one listing has a price, yet the stored
    [min_price] is [None]: [float(x) if x else None] treats the minimum
    [0.0] as missing. *)
Theorem create_daily_snapshot_zero_price :
  snd (create_daily_snapshot 7
         [civic_listing (Some 0) "craigslist" "a";
          civic_listing (Some 20000) "facebook" "b"] [])
  = [mkSnapshot 7 "Honda" "Civic" (Some (20000 # 2)) None (Some 20000)
       2 1 0 1].
Proof. vm_compute; reflexivity. Qed.

(* ------------------------------------------------------------------ *)
(** ** Upsert *)

Lemma find_by_url_url (u : string) (db : list Listing) (r : Listing) :
  find_by_url u db = Some r -> url r = u.
Proof.
  intros H; apply find_some in H as [_ H]; now apply String.eqb_eq.
Qed.

Lemma find_update_by_url (u : string) (r : Listing) (db : list Listing) (x : Listing) :
  url r = u -> find_by_url u db = Some x ->
  find_by_url u (update_by_url u (fun _ => r) db) = Some r.
Proof.
  intros Hr; unfold find_by_url, update_by_url.
  induction db as [|l db IH]; simpl; [discriminate|].
  destruct (String.eqb (url l) u) eqn:Hl; simpl.
  - intros _; now rewrite Hr, String.eqb_refl.
  - rewrite Hl; auto.
Qed.

(** [last_seen] is not mapped: assigning it leaves the row as it is. *)
Lemma set_last_seen_id (now : timestamp) (l : Listing) : set_last_seen now l = l.
Proof. reflexivity. Qed.

Lemma race_recovery_frame (env : Env) (now : timestamp) (u : string)
    (db : list Listing) (r : Listing) :
  find_by_url u db = Some r ->
  (forall r', fst (race_recovery env now u db) = Ok r' -> upsert_frame r r') /\
  exists r', find_by_url u (snd (race_recovery env now u db)) = Some r'
             /\ upsert_frame r r'.
Proof.
  intros Hf; unfold race_recovery; rewrite Hf, set_last_seen_id.
  assert (Hrefl : upsert_frame r r) by (destruct r; reflexivity).
  destruct (retry_commit_fails env); simpl; split.
  - discriminate.
  - exists r; split; auto.
  - intros r' [= <-]; exact Hrefl.
  - exists r; split; [|exact Hrefl].
    apply (find_update_by_url _ _ _ r); auto.
    now apply find_by_url_url in Hf.
Qed.

(** The frame of one call on a url whose row [r] is in the table the
    call writes to. *)
Lemma upsert_existing_frame (env : Env) (now : timestamp) (d : ListingData)
    (db : list Listing) (u : string) (r : Listing) :
  d_url d = Some u -> u <> EmptyString ->
  find_by_url u (concurrent env db) = Some r ->
  (forall r', fst (upsert_listing env now d db) = Ok r' -> upsert_frame r r') /\
  exists r', find_by_url u (snd (upsert_listing env now d db)) = Some r'
             /\ upsert_frame r r'.
Proof.
  intros Hu Hne Hf1.
  assert (Hrefl : upsert_frame r r) by (destruct r; reflexivity).
  unfold upsert_listing; rewrite Hu.
  destruct (String.eqb u EmptyString) eqn:He.
  { apply String.eqb_eq in He; contradiction. }
  destruct (find_by_url u db) as [existing|].
  - rewrite Hf1.
    destruct (commit_fails env).
    { simpl; split; [discriminate|exists r; auto]. }
    destruct (not_null_ok (update_existing now d existing r)).
    + simpl; split.
      * intros r' [= <-]; reflexivity.
      * exists (update_existing now d existing r); split; [|reflexivity].
        apply (find_update_by_url _ _ _ r); auto; simpl.
        now apply find_by_url_url in Hf1.
    + now apply race_recovery_frame.
  - destruct (new_listing now u d) as [nl|e].
    2:{ simpl; split; [discriminate|exists r; auto]. }
    destruct (commit_fails env).
    { simpl; split; [discriminate|exists r; auto]. }
    rewrite Hf1; now apply race_recovery_frame.
Qed.

(** C9: on the update path (the url already has a row [r] in the table
    the call writes to), neither the returned row nor the stored row
    differs from [r] in [platform], [url], [make], [model], [year],
    [mileage] or [first_seen], whatever the incoming dict holds; only
    [title], [price], [views], [likes], [comments], [scraped_at] and
    [last_seen] can change. This covers the race-recovery update and
    every interleaving with other writers and every store failure. *)
Theorem upsert_update_path_frame (env : Env) (now : timestamp)
    (d : ListingData) (db : list Listing) (u : string) (r : Listing) :
  d_url d = Some u -> u <> EmptyString ->
  find_by_url u (concurrent env db) = Some r ->
  (forall r', fst (upsert_listing env now d db) = Ok r' -> upsert_frame r r') /\
  exists r', find_by_url u (snd (upsert_listing env now d db)) = Some r'
             /\ upsert_frame r r'.
Proof. apply upsert_existing_frame. Qed.

Lemma upsert_update_path_frame_witness :
  d_url c9_data = Some "u"%string /\ "u"%string <> EmptyString /\
  find_by_url "u" (concurrent quiet_env [c9_row]) = Some c9_row /\
  ((forall r', fst (upsert_listing quiet_env 200%Z c9_data [c9_row]) = Ok r' ->
               upsert_frame c9_row r') /\
   exists r', find_by_url "u" (snd (upsert_listing quiet_env 200%Z c9_data [c9_row]))
              = Some r' /\ upsert_frame c9_row r').
Proof.
  assert (H1 : d_url c9_data = Some "u"%string) by reflexivity.
  assert (H2 : "u"%string <> EmptyString) by discriminate.
  assert (H3 : find_by_url "u" (concurrent quiet_env [c9_row]) = Some c9_row)
    by reflexivity.
  refine (conj H1 (conj H2 (conj H3 _))).
  exact (upsert_update_path_frame quiet_env 200%Z c9_data [c9_row] "u" c9_row H1 H2 H3).
Defined.

(** C5 (evaluation at the failing input). On an empty table the first
    call for url ["u"], at time 100, raises [TypeError] at line 95:
    [Listing( **listing_data)] gets the keywords [first_seen] and
    [last_seen], which [models.Listing] does not map. Nothing is stored.
    The second call, at time 200, is an insert again and fails the same
    way, so after both calls there is no row for ["u"] at all, let alone
    one whose [first_seen] is 100. What holds is the other half: no call
    changes the [first_seen] of a row that exists, not the update branch,
    not the race recovery, under any interleaving and store failure. *)
Theorem upsert_first_seen_never_set :
  upsert_listing quiet_env 100%Z c5_first [] = (Err TypeError, []) /\
  upsert_listing quiet_env 200%Z c9_data [] = (Err TypeError, []) /\
  find_by_url "u" (run_upserts [(100%Z, c5_first); (200%Z, c9_data)] []) = None /\
  (forall (env : Env) (now : timestamp) (d : ListingData) (db : list Listing)
          (u : string) (r : Listing),
     d_url d = Some u -> u <> EmptyString ->
     find_by_url u (concurrent env db) = Some r ->
     (forall r', fst (upsert_listing env now d db) = Ok r' ->
                 first_seen r' = first_seen r) /\
     (forall r', find_by_url u (snd (upsert_listing env now d db)) = Some r' ->
                 first_seen r' = first_seen r)).
Proof.
  split; [vm_compute; reflexivity|].
  split; [vm_compute; reflexivity|].
  split; [vm_compute; reflexivity|].
  intros env now d db u r Hu Hne Hf.
  destruct (upsert_existing_frame env now d db u r Hu Hne Hf)
    as [Hret [r1 [Hr1 Hfr1]]].
  split.
  - intros r' Hr'; rewrite (Hret r' Hr'); reflexivity.
  - intros r' Hr'; rewrite Hr1 in Hr'; injection Hr' as <-.
    rewrite Hfr1; reflexivity.
Qed.

(** C3 (evaluation at the failing input). The table is empty when the
    call looks url ["u"] up at time 200; another writer commits
    [c9_row] for the same url before this call inserts. The call never
    reaches a uniqueness violation: [Listing( **listing_data)] raises
    [TypeError] at line 95, the [except Exception] branch re-raises it,
    and the call fails where the claim has it return the existing
    listing. It fails the same way with no other writer. The
    [except IntegrityError] branch is only reached from the update
    commit (here a re-observation whose title is [None]); it then
    returns the stored row unchanged: neither [scraped_at] nor the new
    price nor the view count is written. *)
Theorem upsert_race_insert_type_error :
  let env := mkEnv (fun db => db ++ [c9_row]) false false in
  upsert_listing env 200%Z c9_data [] = (Err TypeError, [c9_row]) /\
  upsert_listing quiet_env 200%Z c9_data [] = (Err TypeError, []) /\
  upsert_listing quiet_env 200%Z null_title_update [c9_row] = (Ok c9_row, [c9_row]).
Proof. vm_compute; repeat split; reflexivity. Qed.

(* ------------------------------------------------------------------ *)
(** ** Stable descending sort *)

Section SortDesc.
Context {A : Type} (key : A -> Q).


Lemma insert_desc_perm (x : A) (l : list A) :
  Permutation (insert_desc key x l) (x :: l).
Proof.
  induction l as [|y l IH]; simpl; auto.
  destruct (Qle_bool (key x) (key y)); auto.
  rewrite IH; apply perm_swap.
Qed.

Lemma insert_desc_sorted (x : A) (l : list A) :
  Sorted (desc key) l -> Sorted (desc key) (insert_desc key x l).
Proof.
  induction l as [|y l IH]; intros Hs; simpl.
  - repeat constructor.
  - destruct (Qle_bool (key x) (key y)) eqn:Hxy.
    + apply Qle_bool_iff in Hxy.
      apply Sorted_inv in Hs as [Hl Hhd].
      constructor; [now apply IH|].
      destruct l as [|z l]; simpl.
      * constructor; exact Hxy.
      * destruct (Qle_bool (key x) (key z)); constructor; auto.
        now inversion Hhd.
    + constructor; auto; constructor.
      unfold desc; apply Qlt_le_weak, Qnot_le_lt.
      intros H; apply Qle_bool_iff in H; congruence.
Qed.

Lemma sort_desc_acc (l acc : list A) :
  Sorted (desc key) acc ->
  Sorted (desc key) (fold_left (fun acc x => insert_desc key x acc) l acc) /\
  Permutation (fold_left (fun acc x => insert_desc key x acc) l acc) (l ++ acc).
Proof.
  revert acc; induction l as [|x l IH]; intros acc Hs; simpl; [split; auto|].
  destruct (IH (insert_desc key x acc) (insert_desc_sorted x acc Hs)) as [H1 H2].
  split; auto.
  rewrite H2, insert_desc_perm; symmetry; apply Permutation_middle.
Qed.

Lemma sort_desc_sorted (l : list A) : Sorted (desc key) (sort_desc key l).
Proof. apply sort_desc_acc; constructor. Qed.

Lemma sort_desc_perm (l : list A) : Permutation (sort_desc key l) l.
Proof.
  unfold sort_desc; rewrite (proj2 (sort_desc_acc l [] (Sorted_nil _))).
  now rewrite app_nil_r.
Qed.

End SortDesc.

(* ------------------------------------------------------------------ *)
(** ** Trending *)

Lemma Qeq_bool_false (q : Q) : Qeq_bool q 0 = false <-> ~ q == 0.
Proof.
  rewrite <- not_true_iff_false, Qeq_bool_iff; tauto.
Qed.

Lemma trend_entry_value (ts : DailySnapshot) (p t : Q) :
  ~ p == 0 -> trend_entry ts p t = Some (trend_value ts p t).
Proof.
  intros Hp; unfold trend_entry, py_div.
  apply Qeq_bool_false in Hp; now rewrite Hp.
Qed.

(** The loop never raises, and its entries are exactly those of the
    snapshots of [todays] with a comparison snapshot, both prices
    nonzero. *)
Lemma trending_loop_spec (cmp : Z) (snaps todays : list DailySnapshot) :
  exists es, trending_loop cmp snaps todays = Some es /\
  forall e, In e es <->
    exists ts os p t, In ts todays /\ comparison_snapshot cmp snaps ts = Some os
      /\ avg_price os = Some p /\ avg_price ts = Some t
      /\ ~ p == 0 /\ ~ t == 0 /\ e = trend_value ts p t.
Proof.
  induction todays as [|ts todays [es [Hes IH]]]; simpl.
  - exists []; split; auto; intros e; split; [intros []|].
    intros (? & ? & ? & ? & [] & _).
  - destruct (comparison_snapshot cmp snaps ts) as [os|] eqn:Hc.
    2:{ exists es; split; auto; intros e; rewrite IH; split.
        - intros (ts' & os & p & t & Hin & R); exists ts', os, p, t; intuition.
        - intros (ts' & os' & p & t & [<-|Hin] & R); [|exists ts', os', p, t; auto].
          destruct R as [R _]; congruence. }
    destruct (avg_price os) as [p|] eqn:Hp;
      [destruct (avg_price ts) as [t|] eqn:Ht|].
    + destruct (negb (Qeq_bool p 0) && negb (Qeq_bool t 0)) eqn:Hnz.
      * apply andb_true_iff in Hnz as [Hp0 Ht0].
        apply negb_true_iff, Qeq_bool_false in Hp0.
        apply negb_true_iff, Qeq_bool_false in Ht0.
        rewrite Hes, (trend_entry_value ts p t Hp0).
        exists (trend_value ts p t :: es); split; auto.
        intros e; simpl; rewrite IH; split.
        -- intros [<-|(ts' & os' & p' & t' & Hin & R)].
           ++ exists ts, os, p, t; intuition.
           ++ exists ts', os', p', t'; intuition.
        -- intros (ts' & os' & p' & t' & [<-|Hin] & Hc' & Hp' & Ht' & R).
           ++ left; rewrite Hc in Hc'; injection Hc' as <-.
              rewrite Hp in Hp'; rewrite Ht in Ht'.
              injection Hp' as <-; injection Ht' as <-; symmetry; apply R.
           ++ right; exists ts', os', p', t'; intuition.
      * exists es; split; auto; intros e; rewrite IH; split.
        -- intros (ts' & os' & p' & t' & Hin & R); exists ts', os', p', t'; intuition.
        -- intros (ts' & os' & p' & t' & [<-|Hin] & Hc' & Hp' & Ht' & Hp0 & Ht0 & R);
             [|exists ts', os', p', t'; intuition].
           exfalso; rewrite Hc in Hc'; injection Hc' as <-.
           rewrite Hp in Hp'; rewrite Ht in Ht'.
           injection Hp' as <-; injection Ht' as <-.
           apply Qeq_bool_false in Hp0; apply Qeq_bool_false in Ht0.
           rewrite Hp0, Ht0 in Hnz; discriminate.
    + exists es; split; auto; intros e; rewrite IH; split.
      * intros (ts' & os' & p' & t' & Hin & R); exists ts', os', p', t'; intuition.
      * intros (ts' & os' & p' & t' & [<-|Hin] & Hc' & Hp' & Ht' & R);
          [|exists ts', os', p', t'; intuition].
        congruence.
    + exists es; split; auto; intros e; rewrite IH; split.
      * intros (ts' & os' & p' & t' & Hin & R); exists ts', os', p', t'; intuition.
      * intros (ts' & os' & p' & t' & [<-|Hin] & Hc' & Hp' & Ht' & R);
          [|exists ts', os', p', t'; intuition].
        congruence.
Qed.

Lemma filter_keys_nodup {A B} (key : A -> B) (keep : A -> bool) (rows : list A) :
  NoDup (map key rows) -> NoDup (map key (filter keep rows)).
Proof.
  induction rows as [|r rows IH]; cbn; [auto|].
  intros Hk; apply NoDup_cons_iff in Hk as [Hout Hk].
  destruct (keep r); cbn; [|auto].
  apply NoDup_cons; [|auto].
  rewrite in_map_iff; intros (y & Hy & Hin).
  apply Hout; rewrite <- Hy; apply in_map.
  apply filter_In in Hin; tauto.
Qed.

(** Distinct values of [f] stay distinct under a [g] that determines [f]. *)
Lemma NoDup_map_det {A B C} (f : A -> B) (g : A -> C) (l : list A) :
  (forall x y, In x l -> In y l -> g x = g y -> f x = f y) ->
  NoDup (map f l) -> NoDup (map g l).
Proof.
  induction l as [|x l IH]; simpl; intros Hdet Hnd; [constructor|].
  inversion Hnd as [|? ? Hnotin Hnd']; subst.
  constructor; [|apply IH; auto].
  intros Hin; apply in_map_iff in Hin as (y & Hy & Hin).
  apply Hnotin; rewrite (Hdet x y); auto; apply in_map; auto.
Qed.

Lemma trend_entry_pair (ts : DailySnapshot) (p t : Q) (e : TrendEntry) :
  trend_entry ts p t = Some e ->
  (t_make e, t_model e) = (snap_make ts, snap_model ts).
Proof.
  unfold trend_entry; destruct (py_div _ p); [|discriminate].
  intros [= <-]; reflexivity.
Qed.

(** The loop builds at most one entry per snapshot of [todays], with
    the make and model of that snapshot. *)
Lemma trending_loop_pairs (cmp : Z) (snaps todays : list DailySnapshot)
    (es : list TrendEntry) :
  trending_loop cmp snaps todays = Some es ->
  NoDup (map (fun s => (snap_make s, snap_model s)) todays) ->
  NoDup (map (fun e => (t_make e, t_model e)) es) /\
  incl (map (fun e => (t_make e, t_model e)) es)
       (map (fun s => (snap_make s, snap_model s)) todays).
Proof.
  revert es; induction todays as [|ts todays IH]; intros es; simpl.
  - intros [= <-] _; split; [constructor|intros x []].
  - intros Hl Hnd; inversion Hnd as [|? ? Hout Hnd']; subst.
    assert (Hskip : trending_loop cmp snaps todays = Some es ->
              NoDup (map (fun e => (t_make e, t_model e)) es) /\
              incl (map (fun e => (t_make e, t_model e)) es)
                   ((snap_make ts, snap_model ts)
                    :: map (fun s => (snap_make s, snap_model s)) todays)).
    { intros H; destruct (IH es H Hnd') as [H1 H2]; split; auto.
      intros x Hx; right; auto. }
    destruct (comparison_snapshot cmp snaps ts) as [os|]; [|auto].
    destruct (avg_price os) as [p|]; [|auto].
    destruct (avg_price ts) as [t|]; [|auto].
    destruct (negb (Qeq_bool p 0) && negb (Qeq_bool t 0)); [|auto].
    destruct (trend_entry ts p t) as [e|] eqn:He; [|discriminate].
    destruct (trending_loop cmp snaps todays) as [es'|] eqn:Hr; [|discriminate].
    injection Hl as <-.
    destruct (IH es' eq_refl Hnd') as [H1 H2].
    apply trend_entry_pair in He; simpl; rewrite He; split.
    + constructor; auto.
    + intros x [<-|Hx]; [left; reflexivity|right; auto].
Qed.

Lemma In_py_slice_to {A} (n : Z) (l : list A) (x : A) :
  In x (py_slice_to n l) -> In x l.
Proof.
  unfold py_slice_to; intros H.
  destruct (Z.leb 0 n);
  match type of H with In _ (firstn ?k _) =>
    rewrite <- (firstn_skipn k l); apply in_or_app; left; exact H end.
Qed.

(** C10: [get_trending_cars] never raises [ZeroDivisionError]: on every
    snapshot table it returns a list, and every entry it returns has a
    nonzero comparison price [old_price], the divisor of [change_pct]
    (pairs whose comparison price is null or zero are skipped before the
    division). *)
Theorem get_trending_cars_no_zero_division (today days limit : Z)
    (snaps : list DailySnapshot) :
  get_trending_cars today days limit snaps <> None /\
  forall out e, get_trending_cars today days limit snaps = Some out ->
    In e out -> ~ old_price e == 0.
Proof.
  unfold get_trending_cars.
  destruct (trending_loop_spec (today - days) snaps
              (filter (fun s => Z.eqb (snap_date s) today
                                && is_some (avg_price s)) snaps))
    as [es [Hes Hmem]].
  rewrite Hes; split; [discriminate|].
  intros out e [= <-] Hin.
  apply In_py_slice_to in Hin.
  apply (Permutation_in _ (sort_desc_perm _ es)) in Hin.
  apply Hmem in Hin as (ts & os & p & t & _ & _ & _ & _ & Hp & _ & ->).
  exact Hp.
Qed.

Lemma NoDup_map_inj {A B} (f : A -> B) (l : list A) (x y : A) :
  NoDup (map f l) -> In x l -> In y l -> f x = f y -> x = y.
Proof.
  induction l as [|a l IH]; simpl; [tauto|].
  intros Hnd Hx Hy Hf; inversion Hnd as [|? ? Hnotin Hnd']; subst.
  destruct Hx as [<-|Hx], Hy as [<-|Hy]; auto.
  - exfalso; apply Hnotin; rewrite Hf; now apply in_map.
  - exfalso; apply Hnotin; rewrite <- Hf; now apply in_map.
Qed.

(** Under the unique constraint, [.first()] of lines 207-212 finds
    the snapshot of that key, when it has a price. *)
Lemma comparison_snapshot_unique (cmp : Z) (snaps : list DailySnapshot)
    (ts os : DailySnapshot) :
  NoDup (map snap_key snaps) ->
  comparison_snapshot cmp snaps ts = Some os <->
  In os snaps /\ snap_key os = (cmp, snap_make ts, snap_model ts)
  /\ is_some (avg_price os) = true.
Proof.
  intros Hnd; unfold comparison_snapshot; split.
  - intros Hf; apply find_some in Hf as [Hin Hp].
    apply andb_true_iff in Hp as [Hk Hs].
    apply is_key_spec in Hk; auto.
  - intros (Hin & Hk & Hs).
    destruct (find _ snaps) as [y|] eqn:Hf.
    + apply find_some in Hf as [Hy Hp].
      apply andb_true_iff in Hp as [Hky _]; apply is_key_spec in Hky.
      f_equal; apply (NoDup_map_inj snap_key snaps); auto; congruence.
    + exfalso; pose proof (find_none _ _ Hf os Hin) as H; simpl in H.
      rewrite Hs, andb_true_r in H.
      apply not_true_iff_false in H; apply H, is_key_spec; exact Hk.
Qed.

(** C4 counterexample: today is day 100, [days = 7]. The Civic entry
    reports [change = 333.33] although the difference of the average
    prices is [55000/3 - 18000 = 1000/3], and the Camry pair, whose two
    snapshots both have a non-null [avg_price] (20000 and 0.0), is
    absent. *)
Lemma get_trending_cars_counterexample :
  get_trending_cars 100 7 10 c4_snapshots =
    Some [mkTrend "Honda" "Civic" 18000 (55000 # 3) (33333 # 100) (185 # 100)
            "up" 3]
  /\ ~ (33333 # 100 == 55000 # 3 - 18000).
Proof.
  split; [vm_compute; reflexivity|].
  unfold Qeq; simpl; discriminate.
Qed.

(** C4 (amended): on a snapshot table satisfying its unique constraint
    and for [limit >= 0], [get_trending_cars today days limit] returns
    the first [limit] entries [out] of a list [out ++ rest] that is
    sorted by decreasing [abs(change)], holds at most one entry per
    (make, model) pair, and whose entries are exactly the entries built
    from a snapshot [ts] dated [today] and the snapshot [ps] of the same
    make and model dated exactly [today - days], both with a non-null and nonzero [avg_price]; each
    such entry has [change = round(t - p, 2)],
    [change_pct = round((t - p) / p * 100, 2)] and direction ["up"]
    exactly when the unrounded [t - p] is positive. *)
Theorem get_trending_cars_spec (today days limit : Z)
    (snaps : list DailySnapshot)
    (Huniq : NoDup (map snap_key snaps)) (Hlimit : (0 <= limit)%Z) :
  exists out rest,
    get_trending_cars today days limit snaps = Some out /\
    Sorted (fun a b => py_abs (change b) <= py_abs (change a)) (out ++ rest) /\
    List.length out = Nat.min (Z.to_nat limit) (List.length (out ++ rest)) /\
    NoDup (map (fun e => (t_make e, t_model e)) (out ++ rest)) /\
    forall e, In e (out ++ rest) <->
      exists ts ps p t,
        In ts snaps /\ snap_date ts = today /\ avg_price ts = Some t
        /\ ~ t == 0
        /\ In ps snaps
        /\ snap_key ps = ((today - days)%Z, snap_make ts, snap_model ts)
        /\ avg_price ps = Some p /\ ~ p == 0
        /\ e = mkTrend (snap_make ts) (snap_model ts) p t
                 (py_round 2 (t - p)) (py_round 2 ((t - p) / p * 100))
                 (if Qlt_le_dec 0 (t - p) then "up" else "down")
                 (listing_count ts).
Proof.
  unfold get_trending_cars.
  set (todays := filter (fun s => Z.eqb (snap_date s) today
                                  && is_some (avg_price s)) snaps).
  destruct (trending_loop_spec (today - days) snaps todays) as [es [Hes Hmem]].
  rewrite Hes.
  set (sorted := sort_desc (fun e => py_abs (change e)) es).
  exists (firstn (Z.to_nat limit) sorted), (skipn (Z.to_nat limit) sorted).
  unfold py_slice_to; apply Z.leb_le in Hlimit; rewrite Hlimit.
  rewrite firstn_skipn; split; [reflexivity|split; [|split; [|split]]].
  - exact (sort_desc_sorted _ es).
  - apply length_firstn.
  - assert (Hkeys : NoDup (map snap_key todays)) by (apply filter_keys_nodup; exact Huniq).
    assert (Hpairs : NoDup (map (fun s => (snap_make s, snap_model s)) todays)).
    { apply (NoDup_map_det snap_key); [|exact Hkeys].
      intros x y Hx Hy Hxy; unfold todays in Hx, Hy.
      apply filter_In in Hx as [_ Hx]; apply filter_In in Hy as [_ Hy].
      apply andb_true_iff in Hx as [Hx _]; apply andb_true_iff in Hy as [Hy _].
      apply Z.eqb_eq in Hx; apply Z.eqb_eq in Hy.
      unfold snap_key; injection Hxy as Hm Hmd; congruence. }
    destruct (trending_loop_pairs _ _ _ _ Hes Hpairs) as [Hnd _].
    eapply Permutation_NoDup; [|exact Hnd].
    apply Permutation_map; symmetry; apply sort_desc_perm.
  - intros e; split.
    + intros Hin; apply (Permutation_in _ (sort_desc_perm _ es)) in Hin.
      apply Hmem in Hin as (ts & os & p & t & Hts & Hc & Hp & Ht & Hp0 & Ht0 & ->).
      apply filter_In in Hts as [Hts Hsel].
      apply andb_true_iff in Hsel as [Hd _]; apply Z.eqb_eq in Hd.
      apply comparison_snapshot_unique in Hc as (Hos & Hk & _); auto.
      exists ts, os, p, t; repeat split; auto.
    + intros (ts & ps & p & t & Hts & Hd & Ht & Ht0 & Hps & Hk & Hp & Hp0 & ->).
      apply (Permutation_in _ (Permutation_sym (sort_desc_perm _ es))).
      apply Hmem; exists ts, ps, p, t; repeat split; auto.
      * apply filter_In; split; auto.
        rewrite Hd, Z.eqb_refl, Ht; reflexivity.
      * apply comparison_snapshot_unique; auto.
        rewrite Hp; auto.
Qed.

Lemma get_trending_cars_spec_witness :
  NoDup (map snap_key c4_snapshots) /\ (0 <= 10)%Z /\
  exists out rest,
    get_trending_cars 100 7 10 c4_snapshots = Some out /\
    Sorted (fun a b => py_abs (change b) <= py_abs (change a)) (out ++ rest) /\
    List.length out = Nat.min (Z.to_nat 10) (List.length (out ++ rest)) /\
    NoDup (map (fun e => (t_make e, t_model e)) (out ++ rest)) /\
    forall e, In e (out ++ rest) <->
      exists ts ps p t,
        In ts c4_snapshots /\ snap_date ts = 100%Z /\ avg_price ts = Some t
        /\ ~ t == 0
        /\ In ps c4_snapshots
        /\ snap_key ps = ((100 - 7)%Z, snap_make ts, snap_model ts)
        /\ avg_price ps = Some p /\ ~ p == 0
        /\ e = mkTrend (snap_make ts) (snap_model ts) p t
                 (py_round 2 (t - p)) (py_round 2 ((t - p) / p * 100))
                 (if Qlt_le_dec 0 (t - p) then "up" else "down")
                 (listing_count ts).
Proof.
  assert (H1 : NoDup (map snap_key c4_snapshots)).
  { nodup_concrete. }
  assert (H2 : (0 <= 10)%Z) by lia.
  exact (conj H1 (conj H2 (get_trending_cars_spec 100 7 10 c4_snapshots H1 H2))).
Defined.

(* ------------------------------------------------------------------ *)
(** ** Market overview: the per-car statistics *)

Lemma pair_eqb_refl (a : string * string) : pair_eqb a a = true.
Proof. now apply pair_eqb_spec. Qed.




Lemma assoc_lookup_in (k : string * string) (acc : CarStats) :
  assoc_lookup k acc <> None <-> In k (map fst acc).
Proof.
  induction acc as [|[k1 v1] acc IH]; simpl; [tauto|].
  destruct (pair_eqb k1 k) eqn:H.
  - apply pair_eqb_spec in H; split; [auto|discriminate].
  - rewrite IH; split; [auto|].
    intros [<-|Hin]; auto.
    now rewrite pair_eqb_refl in H.
Qed.


Lemma map_fst_car_step (acc : CarStats) (s : DailySnapshot) :
  map fst (car_step acc s)
  = match assoc_lookup (car_of s) acc with
    | Some _ => map fst acc
    | None => map fst acc ++ [car_of s]
    end.
Proof.
  unfold car_step, assoc_update; rewrite map_map.
  assert (H : forall l : CarStats,
             map (fun e => fst (if pair_eqb (fst e) (car_of s)
                                then (fst e, car_upd s (snd e)) else e)) l
             = map fst l).
  { induction l as [|[k v] l IH]; simpl; auto.
    destruct (pair_eqb k (car_of s)); simpl; now rewrite IH. }
  destruct (assoc_lookup (car_of s) acc); apply (H _) || (rewrite H, map_app; auto).
Qed.


Section CarStatsFold.
Variable k : string * string.




Lemma fold_keys (l : list DailySnapshot) :
  forall acc, NoDup (map fst acc) ->
  NoDup (map fst (fold_left car_step l acc)) /\
  forall k', In k' (map fst (fold_left car_step l acc)) <->
             In k' (map fst acc) \/ exists s, In s l /\ car_of s = k'.
Proof.
  induction l as [|s l IH]; intros acc Hnd; simpl.
  - split; auto; intros k'; split; auto; intros [H|(s & [] & _)]; auto.
  - assert (Hstep : NoDup (map fst (car_step acc s)) /\
                    forall k', In k' (map fst (car_step acc s)) <->
                               In k' (map fst acc) \/ car_of s = k').
    { rewrite map_fst_car_step.
      destruct (assoc_lookup (car_of s) acc) eqn:Hl.
      - split; auto; intros k'; split; auto; intros [H| <-]; auto.
        apply assoc_lookup_in; congruence.
      - split.
        + apply NoDup_app; auto; [repeat constructor; intros []|].
          intros x Hx [<-|[]].
          apply assoc_lookup_in in Hx; auto.
        + intros k'; rewrite in_app_iff; simpl; intuition. }
    destruct Hstep as [Hnd1 Hin1].
    destruct (IH _ Hnd1) as [Hnd2 Hin2]; split; auto.
    intros k'; rewrite Hin2, Hin1; split.
    + intros [[H|H]|(s' & Hs' & H)]; auto; right; eauto.
    + intros [H|(s' & [<-|Hs'] & H)]; auto; right; eauto.
Qed.

End CarStatsFold.











(* ------------------------------------------------------------------ *)
(** ** Cleanup *)

Section CleanupRun.
Context {R : Type} (old : R -> bool).

Lemma filter_keep_all (l : list R) :
  filter old l = [] -> filter (fun x => negb (old x)) l = l.
Proof.
  induction l as [|x l IH]; simpl; auto.
  destruct (old x); simpl; [discriminate|intros H; f_equal; auto].
Qed.

Lemma count_zero (l : list R) :
  Z.eqb (Z.of_nat (List.length (filter old l))) 0 = true <-> filter old l = [].
Proof.
  rewrite Z.eqb_eq; destruct (filter old l); simpl; split; auto; [lia|discriminate].
Qed.

(** Without a fault: the rows that [old] selects go, the others stay. *)
Lemma cleanup_run_nofault (store : list R) :
  cleanup_run old NoFault store =
  (Ok (Z.of_nat (List.length (filter old store)),
       if Z.eqb (Z.of_nat (List.length (filter old store))) 0 then None
       else Some (Z.of_nat (List.length (filter (fun x => negb (old x)) store)))),
   filter (fun x => negb (old x)) store).
Proof.
  unfold cleanup_run; simpl.
  destruct (Z.eqb _ 0) eqn:E; [|reflexivity].
  apply count_zero in E; rewrite filter_keep_all, E by auto; reflexivity.
Qed.

(** With any fault: the committed rows are the old ones or the fully
    cleaned ones; an error before the commit leaves them unchanged. *)
Lemma cleanup_run_faults (f : Fault) (store : list R) :
  let '(r, st) := cleanup_run old f store in
  (st = store \/ st = filter (fun x => negb (old x)) store) /\
  ((exists e, r = Err e) ->
     st = store \/ (f = FailRemaining /\ st = filter (fun x => negb (old x)) store)) /\
  (is_fail_count f = true \/
   (filter old store <> [] /\ (is_fail_commit f = true \/ exists n, f = FailDelete n)) ->
   r = Err PersistenceError /\ st = store).
Proof.
  unfold cleanup_run; simpl.
  destruct (is_fail_count f) eqn:Hc.
  - repeat split; auto.
  - destruct (Z.eqb _ 0) eqn:E.
    + apply count_zero in E; split; [left; reflexivity|split].
      * intros [e He]; discriminate.
      * intros [H|[H _]]; [discriminate|congruence].
    + assert (Hne : filter old store <> []) by (intros H; apply count_zero in H; congruence).
      destruct f; simpl in *; try discriminate;
        (split; [first [left; reflexivity | right; reflexivity]|split]);
        [ intros [e He]; discriminate
        | intros [H|[_ [H|[n' H]]]]; discriminate
        | intros _; left; reflexivity
        | intros _; split; reflexivity
        | intros _; left; reflexivity
        | intros _; split; reflexivity
        | intros _; right; split; reflexivity
        | intros [H|[_ [H|[n' H]]]]; discriminate ].
Qed.

End CleanupRun.

(** [cleanup_old_listings] raises [AttributeError] on every call, for
    every fault, clock and retention period, and the store keeps every
    row. *)
Lemma cleanup_old_listings_attribute_error (f : Fault) (now rd : Z)
    (store : list Listing) :
  cleanup_old_listings f now rd store = (Err AttributeError, store).
Proof. reflexivity. Qed.

(** C6 (evaluation at the failing input). With [now] at day 1000 and a
    retention of 90 days, [c6_store] holds one listing last seen a second
    before the cutoff [now - 90 days] and one last seen a second after it.
    The call raises [AttributeError] (line 55 builds
    [Listing.last_seen < cutoff_date] and [models.Listing] maps no
    [last_seen]); the store is unchanged, so the listing last seen before
    the cutoff is not deleted. The same holds on every input: no listing
    is ever deleted. *)
Theorem cleanup_old_listings_never_deletes :
  let cutoff := (c6_now - timedelta_days 90)%Z in
  cleanup_old_listings NoFault c6_now 90 c6_store = (Err AttributeError, c6_store) /\
  (exists l, In l (snd (cleanup_old_listings NoFault c6_now 90 c6_store)) /\
             last_seen l = Some (cutoff - usec_per_second)%Z) /\
  (forall f now rd store,
     snd (cleanup_old_listings f now rd store) = store /\
     fst (cleanup_old_listings f now rd store) = Err AttributeError).
Proof.
  intros cutoff; split; [apply cleanup_old_listings_attribute_error|split].
  - rewrite cleanup_old_listings_attribute_error; cbn [snd].
    eexists; split; [left; reflexivity|reflexivity].
  - intros f now rd store; rewrite cleanup_old_listings_attribute_error.
    split; reflexivity.
Qed.

(** Claim C7. For every failure point, each cleanup call leaves the store
    either unchanged or fully cleaned, never partly. [cleanup_old_listings]
    raises [AttributeError] at line 55 before any query on every call and
    leaves the store unchanged. For [cleanup_old_snapshots], a failure of
    the count, of the [DELETE] (after any number of removed rows) or of
    the commit raises and leaves the store unchanged; the only raise that
    keeps the deletion is the remaining-count query, after the commit. *)
Theorem cleanup_all_or_nothing (f : Fault) (now rd : Z)
    (ls : list Listing) (ss : list DailySnapshot) :
  let lc := (now - timedelta_days rd)%Z in
  let sc := to_date (now - timedelta_days rd)%Z in
  (let '(r, st) := cleanup_old_listings f now rd ls in
   (st = ls \/ st = filter (fun l => negb (listing_old lc l)) ls) /\
   ((exists e, r = Err e) -> st = ls) /\
   (r = Err AttributeError /\ st = ls)) /\
  (let '(r, st) := cleanup_old_snapshots f now rd ss in
   (st = ss \/ st = filter (fun s => negb (snapshot_old sc s)) ss) /\
   ((exists e, r = Err e) ->
      st = ss \/ (f = FailRemaining /\ st = filter (fun s => negb (snapshot_old sc s)) ss)) /\
   (is_fail_count f = true \/
    (filter (snapshot_old sc) ss <> [] /\ (is_fail_commit f = true \/ exists n, f = FailDelete n)) ->
    r = Err PersistenceError /\ st = ss)).
Proof.
  intros lc sc; split.
  - rewrite cleanup_old_listings_attribute_error.
    split; [left; reflexivity|split; [intros _; reflexivity|split; reflexivity]].
  - unfold cleanup_old_snapshots; fold lc; change (to_date lc) with sc.
    generalize (cleanup_run_faults (snapshot_old sc) f ss).
    destruct (cleanup_run (snapshot_old sc) f ss) as [r st].
    intros (H1 & H2 & H3); split; [exact H1|split].
    + intros (e & He); apply H2; destruct r; [discriminate|eauto].
    + intros Hf; destruct (H3 Hf) as [-> ->]; split; reflexivity.
Qed.

(* ------------------------------------------------------------------ *)
(** ** [get_price_trend] *)

Section SortAsc.
Context {A : Type} (key : A -> Z).

Lemma insert_asc_perm (x : A) (l : list A) :
  Permutation (insert_asc key x l) (x :: l).
Proof.
  induction l as [|y l IH]; simpl; auto.
  destruct (Z.leb (key y) (key x)); auto.
  rewrite IH; apply perm_swap.
Qed.

Lemma insert_asc_sorted (x : A) (l : list A) :
  Sorted (fun a b => (key a <= key b)%Z) l ->
  Sorted (fun a b => (key a <= key b)%Z) (insert_asc key x l).
Proof.
  induction l as [|y l IH]; intros Hs; simpl; [repeat constructor|].
  destruct (Z.leb (key y) (key x)) eqn:Hxy.
  - apply Z.leb_le in Hxy.
    inversion Hs as [|? ? Hs' Hhd]; subst.
    constructor; [apply IH; auto|].
    destruct l as [|z l]; simpl; [constructor; auto|].
    destruct (Z.leb (key z) (key x)); constructor; auto.
    inversion Hhd; auto.
  - apply Z.leb_gt in Hxy; constructor; auto; constructor; lia.
Qed.

Lemma sort_asc_spec (l : list A) :
  Sorted (fun a b => (key a <= key b)%Z) (sort_asc key l) /\
  Permutation (sort_asc key l) l.
Proof.
  unfold sort_asc.
  assert (H : forall acc, Sorted (fun a b => (key a <= key b)%Z) acc ->
    Sorted (fun a b => (key a <= key b)%Z) (fold_left (fun acc x => insert_asc key x acc) l acc)
    /\ Permutation (fold_left (fun acc x => insert_asc key x acc) l acc) (l ++ acc)).
  { induction l as [|x l IH]; intros acc Hs; simpl; [split; auto|].
    destruct (IH (insert_asc key x acc) (insert_asc_sorted x acc Hs)) as [H1 H2].
    split; auto.
    rewrite H2, insert_asc_perm; symmetry; apply Permutation_middle. }
  destruct (H [] (Sorted_nil _)) as [H1 H2]; rewrite app_nil_r in H2; auto.
Qed.

End SortAsc.

Lemma sorted_le_nodup_lt {A} (f : A -> Z) (l : list A) :
  Sorted (fun a b => (f a <= f b)%Z) l -> NoDup (map f l) ->
  Sorted (fun a b => (f a < f b)%Z) l.
Proof.
  intros Hs Hnd.
  apply Sorted_StronglySorted in Hs; [|intros x y z; lia].
  induction Hs as [|a l Hs IH Hall]; [constructor|].
  simpl in Hnd; inversion Hnd as [|? ? Hnotin Hnd']; subst.
  constructor; auto.
  destruct l as [|b l]; constructor.
  inversion Hall as [|? ? Hab _]; subst.
  assert (f a <> f b) by (intros He; apply Hnotin; left; auto); lia.
Qed.

Lemma trend_rows_In (today : Z) (mk md : string) (days : Z)
    (snaps : list DailySnapshot) (s : DailySnapshot) :
  In s (trend_rows today mk md days snaps) <->
  In s snaps /\ snap_make s = mk /\ snap_model s = md /\ (today - days <= snap_date s)%Z.
Proof.
  unfold trend_rows; rewrite filter_In, !andb_true_iff, !String.eqb_eq, Z.leb_le.
  tauto.
Qed.

Lemma get_price_trend_rows (today : Z) (mk md : string) (days : Z)
    (snaps : list DailySnapshot) :
  get_price_trend today mk md days snaps
  = map to_point (sort_asc snap_date (trend_rows today mk md days snaps)).
Proof. reflexivity. Qed.

(** [get_price_trend] returns one point per snapshot of the pair dated on
    or after [today - days] (with no upper bound on the date), and only
    those, in increasing date order. *)
Theorem get_price_trend_spec (today : Z) (mk md : string) (days : Z)
    (snaps : list DailySnapshot) :
  let pts := get_price_trend today mk md days snaps in
  Sorted (fun a b => (p_date a <= p_date b)%Z) pts /\
  List.length pts = List.length (trend_rows today mk md days snaps) /\
  forall p, In p pts <->
    exists s, In s snaps /\ snap_make s = mk /\ snap_model s = md
              /\ (today - days <= snap_date s)%Z /\ p = to_point s.
Proof.
  intros pts; subst pts; rewrite get_price_trend_rows.
  destruct (sort_asc_spec snap_date (trend_rows today mk md days snaps)) as [Hs Hp].
  split; [|split].
  - clear Hp; induction Hs as [|a l Hs IH Hhd]; simpl; constructor; auto.
    destruct l; simpl; constructor; inversion Hhd; auto.
  - rewrite length_map; apply Permutation_length; auto.
  - intros p; rewrite in_map_iff; split.
    + intros (s & <- & Hin); exists s.
      apply (Permutation_in _ Hp), trend_rows_In in Hin; tauto.
    + intros (s & H1 & H2 & H3 & H4 & ->); exists s; split; auto.
      apply (Permutation_in _ (Permutation_sym Hp)), trend_rows_In; auto.
Qed.

(** Under the unique constraint on [(date, make, model)] the points of
    [get_price_trend] have strictly increasing dates: one point per day. *)
Theorem get_price_trend_one_per_day (today : Z) (mk md : string) (days : Z)
    (snaps : list DailySnapshot) (Huniq : NoDup (map snap_key snaps)) :
  Sorted (fun a b => (p_date a < p_date b)%Z) (get_price_trend today mk md days snaps).
Proof.
  rewrite get_price_trend_rows.
  destruct (sort_asc_spec snap_date (trend_rows today mk md days snaps)) as [Hs Hp].
  assert (Hnd : NoDup (map snap_date (trend_rows today mk md days snaps))).
  { apply (NoDup_map_det snap_key); [|apply filter_keys_nodup; auto].
    intros x y Hx Hy Hxy; apply trend_rows_In in Hx, Hy.
    unfold snap_key; destruct Hx as (_ & -> & -> & _), Hy as (_ & -> & -> & _).
    rewrite Hxy; reflexivity. }
  assert (Hnd' : NoDup (map snap_date (sort_asc snap_date (trend_rows today mk md days snaps))))
    by (eapply Permutation_NoDup; [apply Permutation_map; symmetry; exact Hp|exact Hnd]).
  pose proof (sorted_le_nodup_lt snap_date _ Hs Hnd') as Hlt.
  clear Hp Hs Hnd Hnd'.
  induction Hlt as [|a l Hs IH Hhd]; simpl; constructor; auto.
  destruct l; simpl; constructor; inversion Hhd; auto.
Qed.

(* ------------------------------------------------------------------ *)
(** ** More on the cleanups *)

Lemma to_date_minus_days (now rd : Z) :
  to_date (now - timedelta_days rd)%Z = (to_date now - rd)%Z.
Proof.
  unfold to_date, timedelta_days.
  replace (now - rd * usec_per_day)%Z with (now + (- rd) * usec_per_day)%Z by lia.
  rewrite Z.div_add by (unfold usec_per_day, usec_per_second; lia); lia.
Qed.

(** [cleanup_old_snapshots(rd)] (no failure) keeps exactly the snapshots
    dated on or after [date(now) - rd] days: the cutoff is a whole day, the
    [datetime] cutoff truncated to its date. *)
Theorem cleanup_old_snapshots_exact (now rd : Z) (ss : list DailySnapshot) :
  let '(r, st) := cleanup_old_snapshots NoFault now rd ss in
  (forall s, In s st <-> In s ss /\ (to_date now - rd <= snap_date s)%Z) /\
  (exists res, r = Ok res /\ cutoff_date res = (to_date now - rd)%Z
     /\ deleted_count res
        = Z.of_nat (List.length (filter (fun s => Z.ltb (snap_date s) (to_date now - rd)%Z) ss))).
Proof.
  unfold cleanup_old_snapshots; rewrite to_date_minus_days, cleanup_run_nofault.
  cbn [map_result fst snd]; split.
  - intros s; rewrite filter_In; unfold snapshot_old.
    rewrite negb_true_iff, Z.ltb_ge; tauto.
  - eexists; split; [reflexivity|split; reflexivity].
Qed.

(* ------------------------------------------------------------------ *)
(** ** More on [create_daily_snapshot] *)

Lemma loop_counts (d : Z) (rows : list GroupRow) :
  forall snaps c u,
  let res := snapshot_loop d rows snaps c u in
  (snd (fst res) + snd res = c + u + Z.of_nat (List.length rows))%Z.
Proof.
  induction rows as [|row rows IH]; intros snaps c u; simpl; [lia|].
  destruct (find _ snaps); rewrite IH; lia.
Qed.

Lemma In_replace_first {A} (p : A -> bool) (f : A -> A) (l : list A) (x : A) :
  In x l -> p x = false -> In x (replace_first p f l).
Proof.
  induction l as [|y l IH]; simpl; [auto|].
  intros [<-|Hx] Hp; [rewrite Hp; left; auto|].
  destruct (p y); simpl; auto.
Qed.

Lemma loop_keeps (d : Z) (rows : list GroupRow) :
  forall snaps c u s, In s snaps ->
  (forall row, In row rows -> is_key d (g_make row) (g_model row) s = false) ->
  In s (fst (fst (snapshot_loop d rows snaps c u))).
Proof.
  induction rows as [|row rows IH]; intros snaps c u s Hs Hk; simpl; auto.
  assert (Hk' : forall r, In r rows -> is_key d (g_make r) (g_model r) s = false)
    by (intros r Hr; apply Hk; right; exact Hr).
  destruct (find _ snaps); apply IH; auto.
  - apply In_replace_first; auto; apply Hk; left; auto.
  - apply in_or_app; left; auto.
Qed.

Lemma dedup_keys_In (acc : list (string * string)) (ls : list Listing) (k : string * string) :
  In k (dedup_keys acc ls) <-> In k acc \/ exists l, In l ls /\ group_key l = Some k.
Proof.
  revert acc; induction ls as [|l ls IH]; intros acc; simpl.
  - rewrite <- in_rev; split; [auto|intros [H|(l & [] & _)]; auto].
  - destruct (group_key l) as [k0|] eqn:Hg.
    + destruct (existsb (pair_eqb k0) acc) eqn:He; rewrite IH.
      * split.
        -- intros [H|(l' & Hl' & H)]; eauto.
        -- intros [H|(l' & [<-|Hl'] & H)]; eauto.
           left; rewrite Hg in H; injection H as <-.
           apply existsb_exists in He as (x & Hx & Hp); apply pair_eqb_spec in Hp.
           subst; auto.
      * simpl; split.
        -- intros [[<-|H]|(l' & Hl' & H)]; eauto.
        -- intros [H|(l' & [<-|Hl'] & H)]; eauto.
           rewrite Hg in H; injection H as <-; auto.
    + rewrite IH; split.
      * intros [H|(l' & Hl' & H)]; eauto.
      * intros [H|(l' & [<-|Hl'] & H)]; eauto; congruence.
Qed.

Lemma group_rows_In (ls : list Listing) (k : string * string) :
  (exists l, In l ls /\ group_key l = Some k) -> In (group_row ls k) (group_rows ls).
Proof.
  intros H; unfold group_rows; apply in_map, dedup_keys_In; auto.
Qed.

Lemma group_rows_key_In (ls : list Listing) (row : GroupRow) :
  In row (group_rows ls) -> exists l, In l ls /\ group_key l = Some (row_key row).
Proof.
  intros Hr.
  assert (Hk : In (row_key row) (dedup_keys [] ls))
    by (rewrite <- group_rows_keys; apply in_map; auto).
  apply dedup_keys_In in Hk as [[]|H]; auto.
Qed.

Lemma platform_counts_le (g : list Listing) :
  (platform_count "craigslist" g + platform_count "mercadolibre" g
   + platform_count "facebook" g <= Z.of_nat (List.length g))%Z.
Proof.
  unfold platform_count.
  induction g as [|l g IH]; simpl; [lia|].
  destruct (platform l) as [q|]; [|simpl List.length; lia].
  destruct (String.eqb q "craigslist") eqn:E1;
  destruct (String.eqb q "mercadolibre") eqn:E2;
  destruct (String.eqb q "facebook") eqn:E3; simpl List.length;
    try (apply String.eqb_eq in E1; subst q; discriminate);
    try (apply String.eqb_eq in E2; subst q; discriminate); lia.
Qed.

(** The summary of [create_daily_snapshot]: every group row is either
    created or updated, so [snapshots_created + snapshots_updated] is
    [total_cars], the number of (make, model) groups of the listings:
    the length of [dedup_keys [] ls], which lists each pair of a listing
    with a make and a model once. *)
Theorem create_daily_snapshot_counts (d : Z) (ls : list Listing)
    (snaps : list DailySnapshot) :
  let sm := fst (create_daily_snapshot d ls snaps) in
  (snapshots_created sm + snapshots_updated sm = total_cars sm)%Z /\
  total_cars sm = Z.of_nat (List.length (dedup_keys [] ls)) /\
  NoDup (dedup_keys [] ls) /\
  (forall k, In k (dedup_keys [] ls) <-> exists l, In l ls /\ group_key l = Some k).
Proof.
  intros sm; subst sm.
  assert (Hk : NoDup (dedup_keys [] ls) /\
               (forall k, In k (dedup_keys [] ls) <-> exists l, In l ls /\ group_key l = Some k)).
  { split; [apply dedup_keys_nodup; constructor|].
    intros k; rewrite dedup_keys_In.
    split; [intros [[]|H]; exact H|intros H; right; exact H]. }
  unfold create_daily_snapshot.
  pose proof (loop_counts d (group_rows ls) snaps 0 0) as H; simpl in H.
  destruct (snapshot_loop d (group_rows ls) snaps 0 0) as [[s c] u]; simpl in *.
  split; [lia|split; [|exact Hk]].
  rewrite <- group_rows_keys, length_map; reflexivity.
Qed.

(** After [create_daily_snapshot d], every (make, model) pair of a listing
    with both fields set has a row for [d] (the one [.first()] finds),
    holding the group's listing count, the platform counts (at most the
    listing count in total) and the SQL average, minimum and maximum of the
    group's prices passed through [float(x) if x else None]. *)
Theorem create_daily_snapshot_rows (d : Z) (ls : list Listing)
    (snaps : list DailySnapshot) (l : Listing) (mk md : string)
    (Hl : In l ls) (Hg : group_key l = Some (mk, md)) :
  let g := filter (in_group (mk, md)) ls in
  exists s, find (is_key d mk md) (snd (create_daily_snapshot d ls snaps)) = Some s
    /\ listing_count s = Z.of_nat (List.length g)
    /\ (craigslist_count s + mercadolibre_count s + facebook_count s <= listing_count s)%Z
    /\ avg_price s = float_or_none (sql_avg (map price g))
    /\ min_price s = float_or_none (sql_min (map price g))
    /\ max_price s = float_or_none (sql_max (map price g)).
Proof.
  intros g; unfold create_daily_snapshot.
  assert (Hin : In (group_row ls (mk, md)) (group_rows ls))
    by (apply group_rows_In; eauto).
  pose proof (loop_stores d (group_rows ls) (group_rows_nodup ls) snaps 0 0 _ Hin) as H.
  destruct (snapshot_loop d (group_rows ls) snaps 0 0) as [[s c] u]; simpl in *.
  eexists; split; [exact H|]; simpl.
  repeat split; auto.
  apply platform_counts_le.
Qed.

Lemma loop_keys_kept (d : Z) (rows : list GroupRow) :
  forall snaps c u,
  incl (map snap_key snaps) (map snap_key (fst (fst (snapshot_loop d rows snaps c u)))).
Proof.
  induction rows as [|row rows IH]; intros snaps c u; simpl; [apply incl_refl|].
  destruct (find (is_key d (g_make row) (g_model row)) snaps).
  - rewrite <- (map_replace_first _ snap_key (is_key d (g_make row) (g_model row))
                  (overwrite_snapshot row) snaps) by reflexivity.
    apply IH.
  - eapply incl_tran; [|apply IH].
    rewrite map_app; apply incl_appl, incl_refl.
Qed.

(** [create_daily_snapshot d] never removes a row: every (date, make,
    model) key of the table before the call still has a row after it
    (a row of date [d] whose pair is still listed is overwritten in
    place and keeps its key). It leaves untouched every row of another
    date and every row of date [d] whose pair no listing has any more
    (such a row keeps its old figures). *)
Theorem create_daily_snapshot_keeps_rows (d : Z) (ls : list Listing)
    (snaps : list DailySnapshot) :
  (forall s, In s snaps ->
     exists s', In s' (snd (create_daily_snapshot d ls snaps)) /\ snap_key s' = snap_key s) /\
  (forall s, In s snaps ->
     (snap_date s <> d \/
      forall l, In l ls -> group_key l <> Some (snap_make s, snap_model s)) ->
     In s (snd (create_daily_snapshot d ls snaps))).
Proof.
  unfold create_daily_snapshot.
  pose proof (loop_keys_kept d (group_rows ls) snaps 0 0) as Hkeys.
  pose proof (loop_keeps d (group_rows ls) snaps 0 0) as H.
  destruct (snapshot_loop d (group_rows ls) snaps 0 0) as [[s' c] u]; simpl in *.
  split.
  - intros s Hs.
    apply (in_map snap_key), Hkeys, in_map_iff in Hs as (x & Hx & Hin).
    exists x; split; auto.
  - intros s Hs Hother.
    apply H; auto; intros row Hrow.
    apply not_true_iff_false; intros Hk; apply is_key_spec in Hk.
    unfold snap_key in Hk; injection Hk as Hd Hmk Hmd.
    destruct Hother as [Ho|Ho]; [congruence|].
    destruct (group_rows_key_In ls row Hrow) as (l & Hl & Hg).
    apply (Ho l Hl); rewrite Hg, Hmk, Hmd; reflexivity.
Qed.

(** [create_daily_snapshot] keeps the unique constraint on
    [(date, make, model)]: it never inserts a second row for a key. *)
Theorem create_daily_snapshot_unique (d : Z) (ls : list Listing)
    (snaps : list DailySnapshot) (Huniq : NoDup (map snap_key snaps)) :
  NoDup (map snap_key (snd (create_daily_snapshot d ls snaps))).
Proof.
  unfold create_daily_snapshot.
  pose proof (loop_nodup d (group_rows ls) snaps 0 0 Huniq) as H.
  destruct (snapshot_loop d (group_rows ls) snaps 0 0) as [[s c] u]; exact H.
Qed.

(* ------------------------------------------------------------------ *)
(** ** More on [upsert_listing] *)

Lemma map_url_update_by_url (u : string) (r : Listing) (db : list Listing) :
  url r = u -> map url (update_by_url u (fun _ => r) db) = map url db.
Proof.
  intros Hr; unfold update_by_url; rewrite map_map.
  apply map_ext; intros l.
  destruct (String.eqb (url l) u) eqn:E; auto.
  apply String.eqb_eq in E; congruence.
Qed.

Lemma race_recovery_url (env : Env) (now : timestamp) (u : string)
    (db : list Listing) :
  map url (snd (race_recovery env now u db)) = map url db.
Proof.
  unfold race_recovery.
  destruct (find_by_url u db) as [e|] eqn:Hf; [|reflexivity].
  destruct (retry_commit_fails env); [reflexivity|].
  apply map_url_update_by_url; simpl; now apply find_by_url_url in Hf.
Qed.

Lemma race_recovery_ok (env : Env) (now : timestamp) (u : string)
    (db : list Listing) (r : Listing) :
  fst (race_recovery env now u db) = Ok r ->
  find_by_url u db = Some r /\
  snd (race_recovery env now u db) = update_by_url u (fun _ => r) db.
Proof.
  unfold race_recovery.
  destruct (find_by_url u db) as [e|] eqn:Hf; [|discriminate].
  destruct (retry_commit_fails env); [discriminate|].
  simpl; intros [= <-]; auto.
Qed.

Lemma race_recovery_err (env : Env) (now : timestamp) (u : string)
    (db : list Listing) (e : UpsertError) :
  fst (race_recovery env now u db) = Err e ->
  snd (race_recovery env now u db) = db /\ e <> ValueError.
Proof.
  unfold race_recovery.
  destruct (find_by_url u db); [destruct (retry_commit_fails env)|];
    simpl; intros [= <-]; split; auto; discriminate.
Qed.

(** [Listing( **listing_data)] of lines 91-95 raises on every input. *)
Lemma new_listing_type_error (now : timestamp) (u : string) (d : ListingData) :
  new_listing now u d = Err TypeError.
Proof. reflexivity. Qed.

(** [upsert_listing] keeps the unique constraint on [url]: if the table
    and what the other writers leave in it have at most one row per url,
    so has the table after the call. *)
Theorem upsert_url_unique (env : Env) (now : timestamp) (d : ListingData)
    (db : list Listing)
    (Hdb : NoDup (map url db)) (Hdb1 : NoDup (map url (concurrent env db))) :
  NoDup (map url (snd (upsert_listing env now d db))).
Proof.
  unfold upsert_listing.
  destruct (d_url d) as [u|]; [|exact Hdb].
  destruct (String.eqb u EmptyString); [exact Hdb|].
  destruct (find_by_url u db) as [existing|].
  - destruct (find_by_url u (concurrent env db)) as [row|] eqn:Hrow; [|exact Hdb1].
    destruct (commit_fails env); [exact Hdb1|].
    destruct (not_null_ok _); simpl.
    + rewrite map_url_update_by_url; auto; simpl.
      now apply find_by_url_url in Hrow.
    + now rewrite race_recovery_url.
  - rewrite new_listing_type_error; exact Hdb1.
Qed.

(** Lines 91-95 of the insert branch: a url that the existence query
    does not find is never stored. The constructor raises [TypeError]
    before any commit, the [except Exception] branch rolls back and
    re-raises, and the table is what the other writers left. *)
Theorem upsert_insert_type_error (env : Env) (now : timestamp)
    (d : ListingData) (db : list Listing) (u : string)
    (Hu : d_url d = Some u) (Hne : u <> EmptyString)
    (Hnew : find_by_url u db = None) :
  upsert_listing env now d db = (Err TypeError, concurrent env db).
Proof.
  unfold upsert_listing; rewrite Hu.
  apply String.eqb_neq in Hne; rewrite Hne, Hnew, new_listing_type_error.
  reflexivity.
Qed.

Lemma nodup_url_same (db : list Listing) (l l' : Listing) :
  NoDup (map url db) -> In l db -> In l' db -> url l = url l' -> l = l'.
Proof.
  induction db as [|x db IH]; simpl; [tauto|].
  intros Hnd; inversion Hnd as [|? ? Hout Hnd']; subst.
  intros [<-|Hl] [<-|Hl'] He; auto.
  - exfalso; apply Hout; rewrite He; apply in_map; auto.
  - exfalso; apply Hout; rewrite <- He; apply in_map; auto.
Qed.

(** Rewriting the row of url [u] with a row of the same lifecycle
    columns changes no lifecycle column of the table. *)
Lemma update_by_url_lifecycle (u : string) (r row : Listing) (db : list Listing) :
  NoDup (map url db) -> find_by_url u db = Some row -> lifecycle r = lifecycle row ->
  map lifecycle (update_by_url u (fun _ => r) db) = map lifecycle db.
Proof.
  intros Hnd Hf Hr; unfold update_by_url; rewrite map_map.
  apply map_ext_in; intros l Hl.
  destruct (String.eqb (url l) u) eqn:E; [|reflexivity].
  assert (Hrow : In row db) by (apply find_some in Hf; tauto).
  apply String.eqb_eq in E; apply find_by_url_url in Hf.
  rewrite (nodup_url_same db l row Hnd Hl Hrow); [exact Hr|congruence].
Qed.

(** With no duplicate url, [update_by_url u (fun _ => x)] with [x] the
    row of url [u] leaves the table as it is. *)
Lemma update_by_url_same (u : string) (x : Listing) (db : list Listing) :
  NoDup (map url db) -> find_by_url u db = Some x ->
  update_by_url u (fun _ => x) db = db.
Proof.
  intros Hnd Hf; unfold update_by_url.
  rewrite <- (map_id db) at 2; apply map_ext_in; intros l Hl.
  destruct (String.eqb (url l) u) eqn:E; [|reflexivity].
  assert (Hx : In x db) by (apply find_some in Hf; tauto).
  apply String.eqb_eq in E; apply find_by_url_url in Hf.
  symmetry; apply (nodup_url_same db l x Hnd Hl Hx); congruence.
Qed.

(** [upsert_listing] never adds nor removes a row and never writes the
    columns [first_seen] and [last_seen]: the urls of the table, in
    order, and these two columns are those of the table the call
    started from (missing or empty url) or of the table the other
    writers left. A returned row is the row the table then holds for
    its url. *)
Theorem upsert_lifecycle_untouched (env : Env) (now : timestamp)
    (d : ListingData) (db : list Listing)
    (Hdb1 : NoDup (map url (concurrent env db))) :
  map lifecycle (snd (upsert_listing env now d db)) =
    map lifecycle (match d_url d with
                   | Some u => if String.eqb u EmptyString then db else concurrent env db
                   | None => db
                   end) /\
  (forall r, fst (upsert_listing env now d db) = Ok r ->
     d_url d = Some (url r) /\
     find_by_url (url r) (snd (upsert_listing env now d db)) = Some r).
Proof.
  unfold upsert_listing.
  destruct (d_url d) as [u|]; [|split; [reflexivity|discriminate]].
  destruct (String.eqb u EmptyString); [split; [reflexivity|discriminate]|].
  assert (Hrec : map lifecycle (snd (race_recovery env now u (concurrent env db))) =
                   map lifecycle (concurrent env db) /\
                 (forall r, fst (race_recovery env now u (concurrent env db)) = Ok r ->
                    Some u = Some (url r) /\
                    find_by_url (url r) (snd (race_recovery env now u (concurrent env db))) = Some r)).
  { split.
    - unfold race_recovery.
      destruct (find_by_url u (concurrent env db)) as [e|] eqn:Hf; [|reflexivity].
      destruct (retry_commit_fails env); [reflexivity|].
      apply (update_by_url_lifecycle u _ e); auto.
    - intros r Hr; destruct (race_recovery_ok _ _ _ _ _ Hr) as [Hf Hs].
      rewrite Hs; assert (Hu : url r = u) by (now apply find_by_url_url in Hf).
      rewrite Hu; split; [reflexivity|].
      apply (find_update_by_url _ _ _ r); auto. }
  destruct (find_by_url u db) as [existing|].
  - destruct (find_by_url u (concurrent env db)) as [row|] eqn:Hrow;
      [|split; [reflexivity|discriminate]].
    destruct (commit_fails env); [split; [reflexivity|discriminate]|].
    destruct (not_null_ok _); [|exact Hrec].
    assert (Hu : url row = u) by (now apply find_by_url_url in Hrow).
    simpl; split.
    + apply (update_by_url_lifecycle u _ row); auto.
    + intros r [= <-]; simpl; rewrite Hu; split; [reflexivity|].
      apply (find_update_by_url _ _ _ row); auto.
  - rewrite new_listing_type_error; split; [reflexivity|discriminate].
Qed.

(** Error behaviour of [upsert_listing]: it raises [ValueError] exactly
    when the url is missing or empty, and then the table is untouched;
    after any other error the table is what the other writers left: the
    rollback drops every change of the call. *)
Theorem upsert_error_no_write (env : Env) (now : timestamp) (d : ListingData)
    (db : list Listing) :
  (fst (upsert_listing env now d db) = Err ValueError <->
     (d_url d = None \/ d_url d = Some EmptyString)) /\
  (forall e, fst (upsert_listing env now d db) = Err e ->
     snd (upsert_listing env now d db) =
       (match e with ValueError => db | _ => concurrent env db end)).
Proof.
  assert (Hv : forall u, (Some u = None \/ Some u = Some EmptyString) <-> u = EmptyString).
  { intros u; split; [intros [H|H]; [discriminate|congruence]|intros ->; auto]. }
  unfold upsert_listing.
  destruct (d_url d) as [u|].
  2:{ simpl; split; [tauto|intros e [= <-]; reflexivity]. }
  rewrite Hv.
  destruct (String.eqb u EmptyString) eqn:Hemp.
  { apply String.eqb_eq in Hemp; simpl; split; [tauto|intros e [= <-]; reflexivity]. }
  apply String.eqb_neq in Hemp.
  assert (Hrec : forall e, fst (race_recovery env now u (concurrent env db)) = Err e ->
    e <> ValueError /\
    snd (race_recovery env now u (concurrent env db)) =
      (match e with ValueError => db | _ => concurrent env db end)).
  { intros e Hr; destruct (race_recovery_err _ _ _ _ _ Hr) as [Hs He].
    rewrite Hs; split; [exact He|destruct e; congruence]. }
  assert (Hrec' : fst (race_recovery env now u (concurrent env db)) = Err ValueError <->
                  u = EmptyString).
  { split; [intros H; destruct (Hrec _ H) as [H' _]; congruence|intros; contradiction]. }
  destruct (find_by_url u db) as [existing|].
  - destruct (find_by_url u (concurrent env db)) as [row|].
    2:{ simpl; split; [split; [discriminate|contradiction]|intros e [= <-]; reflexivity]. }
    destruct (commit_fails env).
    { simpl; split; [split; [discriminate|contradiction]|intros e [= <-]; reflexivity]. }
    destruct (not_null_ok _).
    + simpl; split; [split; [discriminate|contradiction]|discriminate].
    + split; [exact Hrec'|intros e He; apply Hrec; exact He].
  - rewrite new_listing_type_error; simpl.
    split; [split; [discriminate|contradiction]|intros e [= <-]; reflexivity].
Qed.

(** Lines 97-111 with a single writer and a working store: re-observing
    a stored listing with [title] set to [None] fails the NOT NULL
    constraint on the commit, and the [except IntegrityError] branch
    returns the stored row as it was. The call's new price, engagement
    metrics and [scraped_at] are all dropped and the table is unchanged. *)
Theorem upsert_update_null_title (now : timestamp) (d : ListingData)
    (db : list Listing) (u : string) (existing : Listing)
    (Hu : d_url d = Some u) (Hne : u <> EmptyString)
    (Hex : find_by_url u db = Some existing)
    (Hnull : d_title d = Some None) (Hdb : NoDup (map url db)) :
  upsert_listing quiet_env now d db = (Ok existing, db).
Proof.
  unfold upsert_listing; rewrite Hu.
  apply String.eqb_neq in Hne; rewrite Hne; simpl; rewrite Hex.
  assert (Hn : not_null_ok (update_existing now d existing existing) = false).
  { unfold not_null_ok, update_existing; simpl; rewrite Hnull.
    destruct (platform existing); reflexivity. }
  rewrite Hn; unfold race_recovery; rewrite Hex; simpl.
  rewrite set_last_seen_id, update_by_url_same; auto.
Qed.

(** The lifecycle queries read [Listing.last_seen] (lines 139, 165, 191
    and 200), which [models.Listing] does not map: each raises
    [AttributeError] on every input, and none of them catches it. *)
Theorem lifecycle_queries_attribute_error (now days_old : Z)
    (ls : list Listing) (ss : list DailySnapshot) :
  get_active_listings now days_old ls = Err AttributeError /\
  get_inactive_listings now days_old ls = Err AttributeError /\
  get_listing_stats now ls = Err AttributeError /\
  get_cleanup_stats now ls ss = Err AttributeError.
Proof. repeat split. Qed.

(** [cleanup_all()] raises the [AttributeError] of the listings cleanup
    on every call, before the snapshots cleanup runs: neither table is
    changed, so old snapshots are never removed this way. *)
Theorem cleanup_all_attribute_error (lrd srd : Z) (fl fs : Fault)
    (t1 t2 t3 : timestamp) (ls : list Listing) (ss : list DailySnapshot) :
  cleanup_all lrd srd fl fs t1 t2 t3 ls ss = (Err AttributeError, (ls, ss)).
Proof.
  unfold cleanup_all; rewrite cleanup_old_listings_attribute_error; reflexivity.
Qed.

(* ------------------------------------------------------------------ *)
(** ** Sizes in [get_market_overview] *)

Lemma nodup_length_le {A} (dec : forall x y : A, {x = y} + {x <> y}) (l : list A) :
  (List.length (nodup dec l) <= List.length l)%nat.
Proof.
  apply NoDup_incl_length; [apply NoDup_nodup|].
  intros x; apply nodup_In.
Qed.

Lemma overview_of_sizes (start today : Z) (l : list DailySnapshot) :
  let ov := overview_of start today l in
  List.length (most_listed ov) = Nat.min 10 (Z.to_nat (total_unique_cars ov)) /\
  (0 <= total_unique_cars ov <= total_snapshots ov)%Z.
Proof.
  intros ov; subst ov; unfold overview_of.
  cbn [most_listed total_unique_cars total_snapshots].
  rewrite Nat2Z.id.
  split; [|pose proof (nodup_length_le pair_dec (map car_of l)) as H;
           rewrite length_map in H; lia].
  destruct (fold_keys (EmptyString, EmptyString) l [] (NoDup_nil _)) as [Hnd Hin].
  assert (Hlen : List.length (fold_left car_step l []) = List.length (nodup pair_dec (map car_of l))).
  { rewrite <- (length_map fst).
    apply Permutation_length, NoDup_Permutation; [exact Hnd|apply NoDup_nodup|].
    intros k'; rewrite Hin, nodup_In; simpl; rewrite (in_map_iff car_of).
    split; [intros [[]|(s & Hs & Hk)]; eauto|intros (s & Hk & Hs); eauto]. }
  unfold py_slice_to; change (Z.leb 0 10) with true; cbv iota.
  rewrite length_firstn, (Permutation_length (sort_desc_perm _ _)), length_map, Hlen.
  reflexivity.
Qed.

(** [get_market_overview] lists [min(10, total_unique_cars)] cars under
    [most_listed] (one entry per (make, model) pair of the window, cut at
    ten), and [total_unique_cars] never exceeds [total_snapshots]. *)
Theorem get_market_overview_sizes (today days : Z) (snaps : list DailySnapshot) :
  let ov := get_market_overview today days snaps in
  List.length (most_listed ov) = Nat.min 10 (Z.to_nat (total_unique_cars ov)) /\
  (0 <= total_unique_cars ov <= total_snapshots ov)%Z /\
  total_snapshots ov =
    Z.of_nat (List.length (filter (fun s => Z.leb (today - days) (snap_date s)
                                           && Z.leb (snap_date s) today) snaps)).
Proof.
  intros ov; subst ov; unfold get_market_overview.
  destruct (filter _ snaps) as [|s l] eqn:Hf.
  - simpl; repeat split; lia.
  - rewrite <- Hf.
    destruct (overview_of_sizes (today - days) today (s :: l)) as [H1 H2].
    rewrite <- Hf in H1, H2; repeat split; tauto.
Qed.

(* ------------------------------------------------------------------ *)
(** ** Instances of the hypotheses *)

Lemma get_price_trend_one_per_day_witness :
  NoDup (map snap_key c4_snapshots) /\
  Sorted (fun a b => (p_date a < p_date b)%Z)
    (get_price_trend 100 "Honda" "Civic" 30 c4_snapshots).
Proof.
  assert (H : NoDup (map snap_key c4_snapshots)) by nodup_concrete.
  split; [exact H|].
  exact (get_price_trend_one_per_day 100 "Honda" "Civic" 30 c4_snapshots H).
Defined.

Lemma create_daily_snapshot_rows_witness :
  In (civic_listing (Some 18000) "craigslist" "a") c1_listings /\
  group_key (civic_listing (Some 18000) "craigslist" "a") = Some ("Honda"%string, "Civic"%string) /\
  (let g := filter (in_group ("Honda"%string, "Civic"%string)) c1_listings in
   exists s, find (is_key 7 "Honda" "Civic") (snd (create_daily_snapshot 7 c1_listings c1_snapshots)) = Some s
     /\ listing_count s = Z.of_nat (List.length g)
     /\ (craigslist_count s + mercadolibre_count s + facebook_count s <= listing_count s)%Z
     /\ avg_price s = float_or_none (sql_avg (map price g))
     /\ min_price s = float_or_none (sql_min (map price g))
     /\ max_price s = float_or_none (sql_max (map price g))).
Proof.
  assert (H1 : In (civic_listing (Some 18000) "craigslist" "a") c1_listings) by (left; reflexivity).
  assert (H2 : group_key (civic_listing (Some 18000) "craigslist" "a")
               = Some ("Honda"%string, "Civic"%string)) by reflexivity.
  split; [exact H1|split; [exact H2|]].
  exact (create_daily_snapshot_rows 7 c1_listings c1_snapshots _ "Honda" "Civic" H1 H2).
Defined.

Lemma create_daily_snapshot_unique_witness :
  NoDup (map snap_key c1_snapshots) /\
  NoDup (map snap_key (snd (create_daily_snapshot 7 c1_listings c1_snapshots))).
Proof.
  assert (H : NoDup (map snap_key c1_snapshots)) by nodup_concrete.
  split; [exact H|exact (create_daily_snapshot_unique 7 c1_listings c1_snapshots H)].
Defined.

Lemma upsert_url_unique_witness :
  let env := mkEnv (fun db => db ++ [c9_row]) false false in
  NoDup (map url []) /\ NoDup (map url (concurrent env [])) /\
  NoDup (map url (snd (upsert_listing env 200%Z c9_data []))).
Proof.
  intros env.
  assert (H1 : NoDup (map url (@nil Listing))) by constructor.
  assert (H2 : NoDup (map url (concurrent env []))) by nodup_concrete.
  split; [exact H1|split; [exact H2|]].
  exact (upsert_url_unique env 200%Z c9_data [] H1 H2).
Defined.

Lemma upsert_insert_type_error_witness :
  d_url untitled_data = Some "v"%string /\ "v"%string <> EmptyString /\
  find_by_url "v" [c9_row] = None /\
  upsert_listing quiet_env 100%Z untitled_data [c9_row] = (Err TypeError, [c9_row]).
Proof.
  assert (H1 : d_url untitled_data = Some "v"%string) by reflexivity.
  assert (H2 : "v"%string <> EmptyString) by discriminate.
  assert (H3 : find_by_url "v" [c9_row] = None) by (vm_compute; reflexivity).
  split; [exact H1|split; [exact H2|split; [exact H3|]]].
  exact (upsert_insert_type_error quiet_env 100%Z untitled_data [c9_row] "v" H1 H2 H3).
Defined.

Lemma upsert_lifecycle_untouched_witness :
  NoDup (map url (concurrent quiet_env [c9_row])) /\
  map lifecycle (snd (upsert_listing quiet_env 200%Z c9_data [c9_row])) =
    map lifecycle (match d_url c9_data with
                   | Some u => if String.eqb u EmptyString then [c9_row]
                               else concurrent quiet_env [c9_row]
                   | None => [c9_row]
                   end) /\
  (forall r, fst (upsert_listing quiet_env 200%Z c9_data [c9_row]) = Ok r ->
     d_url c9_data = Some (url r) /\
     find_by_url (url r) (snd (upsert_listing quiet_env 200%Z c9_data [c9_row])) = Some r).
Proof.
  assert (H : NoDup (map url (concurrent quiet_env [c9_row]))) by nodup_concrete.
  split; [exact H|exact (upsert_lifecycle_untouched quiet_env 200%Z c9_data [c9_row] H)].
Defined.

Lemma upsert_update_null_title_witness :
  d_url null_title_update = Some "u"%string /\ "u"%string <> EmptyString /\
  find_by_url "u" [c9_row] = Some c9_row /\ d_title null_title_update = Some None /\
  NoDup (map url [c9_row]) /\
  upsert_listing quiet_env 200%Z null_title_update [c9_row] = (Ok c9_row, [c9_row]).
Proof.
  assert (H1 : d_url null_title_update = Some "u"%string) by reflexivity.
  assert (H2 : "u"%string <> EmptyString) by discriminate.
  assert (H3 : find_by_url "u" [c9_row] = Some c9_row) by (vm_compute; reflexivity).
  assert (H4 : d_title null_title_update = Some None) by reflexivity.
  assert (H5 : NoDup (map url [c9_row])) by nodup_concrete.
  split; [exact H1|split; [exact H2|split; [exact H3|split; [exact H4|split; [exact H5|]]]]].
  exact (upsert_update_null_title 200%Z null_title_update [c9_row] "u" c9_row H1 H2 H3 H4 H5).
Defined.
